(** * Routiners app shell: token/session synchronisation and back navigation

    A shallow embedding of the host side of the bridge between the native
    shell and the embedded web content:

    - [src/lib/webview/bridge.ts], [src/lib/webview/utils.ts]
    - [src/hooks/use-smart-back-handler.ts]
    - [src/hooks/use-auth.ts]            (the SET_TOKEN protocol, [TokenAuth])
    - the [useAuth] hook that follows the screen component in
      [src/app/index.tsx]                (the SET_SESSION protocol, [SessionAuth])
    - [src/app/auth/callback.tsx] and the callback parsing of [signInWithGoogle]

    Hooks are modelled as state transformers in a small state-and-exception
    monad.  React refs and React state are fields of a hook record, the
    JavaScript runtime (mounted WebView, timers, promises, observable effects)
    is a [World] record shared by all hooks.  A handler runs to completion
    before the next one starts; an [await] splits an async function into the
    part before and the part after the suspension.  A handler reads React
    state at its latest value: the component renders between two handlers. *)

From Stdlib Require Import ZArith Lia Ascii String.
From stdpp Require Import base strings gmap list.

Open Scope Z_scope.
Open Scope string_scope.
Open Scope list_scope.

(* ===================================================================== *)
(** ** Data *)
(* ===================================================================== *)

(** The part of the provider's [Session] the hooks read. *)
Record Session := mkSession { access_token : string; refresh_token : string }.

#[global] Instance Session_eq_dec : EqDecision Session.
Proof. solve_decision. Defined.

(** The [detail] of an ['app-command'] event dispatched inside the content. *)
Inductive AppCommand :=
| NAVIGATE_HOME
| NAVIGATE_TO (path : string)
| GET_ROUTE_INFO
| SET_TOKEN (token : option string)
| SET_SESSION (access refresh : string)
| CLEAR_SESSION
| LOGIN_ERROR (error : string).

#[global] Instance AppCommand_eq_dec : EqDecision AppCommand.
Proof. solve_decision. Defined.

(** Calls into the credential provider ([supabase.auth.*]). *)
Inductive ProviderCall :=
| CallSignOut
| CallRefreshSession
| CallSetSession (access refresh : string)
| CallExchangeCodeForSession (code : string).

#[global] Instance ProviderCall_eq_dec : EqDecision ProviderCall.
Proof. solve_decision. Defined.

Inductive Level := LogInfo | LogError.

#[global] Instance Level_eq_dec : EqDecision Level.
Proof. solve_decision. Defined.

(** What a handler does to the outside world, in program order. *)
Inductive Effect :=
| Inject (c : AppCommand)          (* webViewRef.current.injectJavaScript(script) *)
| GoBack                           (* webViewRef.current.goBack() *)
| Provider (c : ProviderCall)      (* supabase.auth.<call>() is issued *)
| Console (l : Level) (msg : string)
| ExitApp                          (* BackHandler.exitApp() *)
| ShowToast (msg : string).        (* ToastAndroid.show(msg, SHORT) *)

#[global] Instance Effect_eq_dec : EqDecision Effect.
Proof. solve_decision. Defined.

(** [AuthChangeEvent] of the provider's change-notification stream. *)
Inductive AuthChangeEvent :=
| INITIAL_SESSION | SIGNED_IN | SIGNED_OUT | TOKEN_REFRESHED
| USER_UPDATED | PASSWORD_RECOVERY | MFA_CHALLENGE_VERIFIED.

(** [RouteInfo] as the shell keeps it. *)
Record RouteInfo := mkRouteInfo {
  path : string;
  isTabRoute : bool;
  isHome : bool;
  canGoBack : bool
}.

(** Messages from the content, after [JSON.parse]; [success] of
    [TOKEN_RECEIVED] may be missing ([message.success ?? true]). *)
Inductive WebToAppMessage :=
| ROUTE_INFO (payload : RouteInfo)
| LOGOUT
| REQUEST_LOGIN
| WEB_READY
| TOKEN_RECEIVED (success : option bool)
| SESSION_SET (success : bool)
| REQUEST_TOKEN_REFRESH
| REQUEST_SESSION_REFRESH
| SESSION_EXPIRED.

(** The answer of [supabase.auth.refreshSession()]: [{data, error}], or a
    rejected promise. *)
Inductive RefreshResult :=
| RefreshData (s : option Session)
| RefreshError (message : string)
| RefreshRejected (e : string).

(** JavaScript truthiness of a [string | null]. *)
Definition truthy (o : option string) : bool :=
  match o with
  | Some s => negb (bool_decide (s = ""))
  | None => false
  end.

(** [a || b] on [string | null]. *)
Definition js_or (a b : option string) : option string :=
  if truthy a then a else b.

(* ===================================================================== *)
(** ** The runtime and the monad of handlers *)
(* ===================================================================== *)

(** [webViewRef] is [true] when [webViewRef.current] holds a mounted WebView.
    [timers] are the pending [setTimeout] handles, [settled] the promises that
    have been resolved with their value; a timer and the promise it guards
    share one identifier, drawn from [nextId]. *)
Record World := mkWorld {
  webViewRef : bool;
  timers : gset nat;
  settled : gmap nat bool;
  nextId : nat;
  trace : list Effect
}.

Record St (H : Type) := mkSt { hook : H; world : World }.
Arguments mkSt {H} _ _.
Arguments hook {H} _.
Arguments world {H} _.

Inductive Res (A : Type) :=
| Ok (a : A)
| Throw (e : string).
Arguments Ok {A} _.
Arguments Throw {A} _.

Definition M (S A : Type) : Type := S → Res A * S.

#[global] Instance M_ret S : MRet (M S) := λ A a s, (Ok a, s).

#[global] Instance M_bind S : MBind (M S) := λ A B f m s,
  match m s with
  | (Ok a, s') => f a s'
  | (Throw e, s') => (Throw e, s')
  end.

Definition throw {S A} (e : string) : M S A := λ s, (Throw e, s).

(** [try { m } catch (e) { h e }] *)
Definition try_catch {S A} (m : M S A) (h : string → M S A) : M S A := λ s,
  match m s with
  | (Ok a, s') => (Ok a, s')
  | (Throw e, s') => h e s'
  end.

Definition gets {S A} (f : S → A) : M S A := λ s, (Ok (f s), s).
Definition modify {S} (f : S → S) : M S unit := λ s, (Ok (), f s).

(** The state a computation leaves, whatever its outcome. *)
Definition exec {S A} (m : M S A) (s : S) : S := (m s).2.

Section Runtime.
Context {H : Type}.

Definition on_world (f : World → World) : M (St H) unit :=
  modify (λ s, mkSt (hook s) (f (world s))).

Definition on_hook (f : H → H) : M (St H) unit :=
  modify (λ s, mkSt (f (hook s)) (world s)).

Definition emit (e : Effect) : M (St H) unit :=
  on_world (λ w, mkWorld (webViewRef w) (timers w) (settled w) (nextId w)
                         (trace w ++ [e])).

Definition log (msg : string) : M (St H) unit := emit (Console LogInfo msg).
Definition log_error (msg : string) : M (St H) unit := emit (Console LogError msg).

(** [webViewRef.current] is non-null. *)
Definition attached : M (St H) bool := gets (λ s, webViewRef (world s)).

(** A fresh identifier for a promise and its timer. *)
Definition fresh : M (St H) nat := λ s,
  let w := world s in
  (Ok (nextId w),
   mkSt (hook s) (mkWorld (webViewRef w) (timers w) (settled w) (S (nextId w))
                          (trace w))).

Definition setTimeout (t : nat) (ms : Z) : M (St H) unit :=
  on_world (λ w, mkWorld (webViewRef w) ({[t]} ∪ timers w) (settled w)
                         (nextId w) (trace w)).

Definition clearTimeout (t : nat) : M (St H) unit :=
  on_world (λ w, mkWorld (webViewRef w) (timers w ∖ {[t]}) (settled w)
                         (nextId w) (trace w)).

(** [resolve(v)] of promise [p]; a settled promise ignores later calls. *)
Definition resolve (p : nat) (v : bool) : M (St H) unit :=
  on_world (λ w, mkWorld (webViewRef w) (timers w)
                         (match settled w !! p with
                          | Some _ => settled w
                          | None => <[p := v]> (settled w)
                          end)
                         (nextId w) (trace w)).

(** React mounts or unmounts the WebView. *)
Definition set_attached (b : bool) : M (St H) unit :=
  on_world (λ w, mkWorld b (timers w) (settled w) (nextId w) (trace w)).

(** Promise [p] has been created and is not settled. *)
Definition pending (p : nat) (s : St H) : Prop :=
  (p < nextId (world s))%nat ∧ settled (world s) !! p = None.

Definition result_of (p : nat) (s : St H) : option bool :=
  settled (world s) !! p.

(** The effects a computation added to the trace of [s]. *)
Definition emitted {A} (m : M (St H) A) (s : St H) : list Effect :=
  drop (length (trace (world s))) (trace (world (exec m s))).
End Runtime.

Definition world0 : World := mkWorld false ∅ ∅ 0 [].

(* ===================================================================== *)
(** ** src/lib/webview: the parts the hooks import *)
(* ===================================================================== *)

Module Lib.

(** [URL] objects: the three components the code reads. *)
Record URL := mkURL { pathname : string; search : string; hash : string }.

(** The constants and the route table of [@/lib/webview] are not among the
    source files, and [URL] and [URLSearchParams] belong to the JavaScript
    platform; the model takes them as parameters.  [URL_parse s] is
    [new URL(s)], [None] when the constructor throws;
    [URLSearchParams_get init name] is
    [new URLSearchParams(init).get(name)]. *)
Class Config := {
  IS_ANDROID : bool;
  DOUBLE_TAP_EXIT_DELAY : Z;
  isTabRoute : string → bool;
  URL_parse : string → option URL;
  URLSearchParams_get : string → string → option string
}.

Section Bridge.
Context {H : Type}.

(** [sendCommand(webViewRef, command): void]:
    [webViewRef.current?.injectJavaScript(toInjectable(command))]. *)
Definition sendCommand (command : AppCommand) : M (St H) unit :=
  a ← attached;
  if a : bool then emit (Inject command) else mret ().

Definition navigateHome : M (St H) unit := sendCommand NAVIGATE_HOME.
Definition navigateTo (p : string) : M (St H) unit := sendCommand (NAVIGATE_TO p).
Definition requestRouteInfo : M (St H) unit := sendCommand GET_ROUTE_INFO.
End Bridge.

(** [extractPath]: [try { return new URL(url).pathname } catch { return '/' }] *)
Definition extractPath `{Config} (url : string) : string :=
  match URL_parse url with
  | Some u => pathname u
  | None => "/"
  end.

End Lib.

(* ===================================================================== *)
(** ** src/hooks/use-auth.ts: the SET_TOKEN protocol *)
(* ===================================================================== *)

Module TokenAuth.

(** [useState] cells and [useRef] cells of the hook.  The resolver stored in
    [tokenReceivedResolverRef] is the closure built by the call that owns
    promise and timer [c]; it is kept as that identifier. *)
Record Hook := mkHook {
  session : option Session;
  isReady : bool;
  isLoggingIn : bool;
  lastSentTokenRef : option string;
  webReadyRef : bool;
  tokenReceivedResolverRef : option nat
}.

Definition hook0 : Hook := mkHook None false false None false None.
Definition init : St Hook := mkSt hook0 world0.

Definition setSession (s : option Session) : M (St Hook) unit :=
  on_hook (λ h, mkHook s (isReady h) (isLoggingIn h) (lastSentTokenRef h)
                       (webReadyRef h) (tokenReceivedResolverRef h)).

Definition setIsReady (b : bool) : M (St Hook) unit :=
  on_hook (λ h, mkHook (session h) b (isLoggingIn h) (lastSentTokenRef h)
                       (webReadyRef h) (tokenReceivedResolverRef h)).

Definition set_lastSentTokenRef (t : option string) : M (St Hook) unit :=
  on_hook (λ h, mkHook (session h) (isReady h) (isLoggingIn h) t
                       (webReadyRef h) (tokenReceivedResolverRef h)).

Definition set_webReadyRef (b : bool) : M (St Hook) unit :=
  on_hook (λ h, mkHook (session h) (isReady h) (isLoggingIn h)
                       (lastSentTokenRef h) b (tokenReceivedResolverRef h)).

Definition set_tokenReceivedResolverRef (r : option nat) : M (St Hook) unit :=
  on_hook (λ h, mkHook (session h) (isReady h) (isLoggingIn h)
                       (lastSentTokenRef h) (webReadyRef h) r).

(** The [token] field of the injected SET_TOKEN detail:
    [token ? JSON.stringify(token) : 'null']. *)
Definition token_detail (token : option string) : option string :=
  if truthy token then token else None.

(** [sendTokenToWebView(token, force = false): boolean] *)
Definition sendTokenToWebView (token : option string) (force : bool)
  : M (St Hook) bool :=
  a ← attached;
  if negb a then
    log "[useAuth] WebView not ready, skipping token send";;
    mret false
  else
    last ← gets (λ s, lastSentTokenRef (hook s));
    if negb force && bool_decide (last = token) then
      log "[useAuth] Same token, skipping (use force=true to override)";;
      mret false
    else
      set_lastSentTokenRef token;;
      emit (Inject (SET_TOKEN (token_detail token)));;
      log "[useAuth] Token sent to WebView";;
      mret true.

(** The resolver closure of call [c]:
    [(success) => { clearTimeout(timeoutId); ref.current = null; resolve(success) }] *)
Definition resolver (c : nat) (success : bool) : M (St Hook) unit :=
  clearTimeout c;;
  set_tokenReceivedResolverRef None;;
  resolve c success.

(** The [setTimeout] callback of call [c]. *)
Definition onTimeout (c : nat) : M (St Hook) unit :=
  set_tokenReceivedResolverRef None;;
  log "[useAuth] Token confirmation timeout";;
  resolve c false.

(** [sendTokenAndWaitConfirmation(token, timeout = 3000): Promise<boolean>];
    the result is the identifier of the returned promise. *)
Definition sendTokenAndWaitConfirmation (token : option string) (timeout : Z)
  : M (St Hook) nat :=
  c ← fresh;
  prev ← gets (λ s, tokenReceivedResolverRef (hook s));
  match prev with
  | Some p => resolver p false
  | None => mret ()
  end;;
  setTimeout c timeout;;
  set_tokenReceivedResolverRef (Some c);;
  sent ← sendTokenToWebView token true;
  (if sent : bool then mret ()
   else clearTimeout c;;
        set_tokenReceivedResolverRef None;;
        resolve c false);;
  mret c.

(** The timer of call [c] elapses; a cleared timer never runs its callback. *)
Definition timerFires (c : nat) : M (St Hook) unit :=
  live ← gets (λ s, bool_decide (c ∈ timers (world s)));
  if live : bool then clearTimeout c;; onTimeout c else mret ().

(** [session?.access_token ?? null] *)
Definition token_of (s : option Session) : option string := access_token <$> s.

(** [syncTokenToWebView(force = false)] *)
Definition syncTokenToWebView (force : bool) : M (St Hook) unit :=
  s ← gets (λ s, session (hook s));
  sendTokenToWebView (token_of s) force;;
  mret ().

(** [refreshAndSyncToken], up to the [await]. *)
Definition refreshAndSyncToken_begin : M (St Hook) unit :=
  log "[useAuth] Refreshing token...";;
  emit (Provider CallRefreshSession).

(** The value of [await supabase.auth.refreshSession()]. *)
Definition awaited (r : RefreshResult)
  : M (St Hook) (option Session * option string) :=
  match r with
  | RefreshData s => mret (s, None)
  | RefreshError m => mret (None, Some m)
  | RefreshRejected e => throw e
  end.

(** [refreshAndSyncToken], from the [await] on; the [try] block encloses it. *)
Definition refreshAndSyncToken_resume (r : RefreshResult) : M (St Hook) unit :=
  try_catch
    (res ← awaited r;
     match res with
     | (_, Some _) =>
         log_error "[useAuth] Token refresh failed:"
     | (Some s, None) =>
         log "[useAuth] Token refreshed, syncing to WebView";;
         sendTokenToWebView (Some (access_token s)) true;;
         mret ()
     | (None, None) => mret ()
     end)
    (λ _, log_error "[useAuth] Token refresh error:").

Definition refreshAndSyncToken (r : RefreshResult) : M (St Hook) unit :=
  refreshAndSyncToken_begin;; refreshAndSyncToken_resume r.

(** [handleWebMessage(message)]; a refresh request starts
    [refreshAndSyncToken] and does not wait for it. *)
Definition handleWebMessage (message : WebToAppMessage) : M (St Hook) unit :=
  match message with
  | WEB_READY =>
      log "[useAuth] Web ready signal received";;
      set_webReadyRef true;;
      s ← gets (λ s, session (hook s));
      if truthy (token_of s) then sendTokenToWebView (token_of s) true;; mret ()
      else mret ()
  | TOKEN_RECEIVED success =>
      log "[useAuth] Token received confirmation:";;
      r ← gets (λ s, tokenReceivedResolverRef (hook s));
      match r with
      | Some c => resolver c (default true success)
      | None => mret ()
      end
  | REQUEST_TOKEN_REFRESH =>
      log "[useAuth] Token refresh requested from web";;
      refreshAndSyncToken_begin
  | _ => mret ()
  end.

(** The [getSession().then(...)] callback of the mount effect. *)
Definition onInitialSession (currentSession : option Session) : M (St Hook) unit :=
  setSession currentSession;;
  setIsReady true;;
  log "[useAuth] Initial session:";;
  if truthy (token_of currentSession)
  then sendTokenToWebView (token_of currentSession) false;; mret ()
  else mret ().

(** The [onAuthStateChange] subscriber. *)
Definition onAuthStateChange (event : AuthChangeEvent) (newSession : option Session)
  : M (St Hook) unit :=
  log "[useAuth] Auth state changed:";;
  setSession newSession;;
  match event with
  | SIGNED_IN | TOKEN_REFRESHED => set_lastSentTokenRef None
  | _ => mret ()
  end;;
  sendTokenToWebView (token_of newSession) true;;
  mret ().

(** [signOut], up to [await supabase.auth.signOut()]. *)
Definition signOut_begin : M (St Hook) unit :=
  log "[useAuth] Signing out...";;
  emit (Provider CallSignOut).

(** [signOut], after the [await]. *)
Definition signOut_resume : M (St Hook) unit :=
  set_lastSentTokenRef None;;
  set_webReadyRef false;;
  sendTokenToWebView None true;;
  mret ().

(** A whole [signOut]; [during] is what other handlers do while it is
    suspended (the provider's SIGNED_OUT notification among them). *)
Definition signOut (during : M (St Hook) unit) : M (St Hook) unit :=
  signOut_begin;; during;; signOut_resume.

(** What can happen to the hook, one handler at a time.  [SendAndWait] is a
    call of [sendTokenAndWaitConfirmation] by whoever holds the hook. *)
Inductive Event :=
| Mount
| Unmount
| InitialSession (s : option Session)
| AuthStateChange (e : AuthChangeEvent) (s : option Session)
| WebMessage (m : WebToAppMessage)
| RefreshSettled (r : RefreshResult)
| SendAndWait (token : option string) (timeout : Z)
| TimerFires (c : nat)
| SyncToken (force : bool)
| SignOutCalled
| SignOutResumed.

Definition step (e : Event) : M (St Hook) unit :=
  match e with
  | Mount => set_attached true
  | Unmount => set_attached false
  | InitialSession s => onInitialSession s
  | AuthStateChange e s => onAuthStateChange e s
  | WebMessage m => handleWebMessage m
  | RefreshSettled r => refreshAndSyncToken_resume r
  | SendAndWait t ms => sendTokenAndWaitConfirmation t ms;; mret ()
  | TimerFires c => timerFires c
  | SyncToken f => syncTokenToWebView f
  | SignOutCalled => signOut_begin
  | SignOutResumed => signOut_resume
  end.

Fixpoint run (es : list Event) : M (St Hook) unit :=
  match es with
  | [] => mret ()
  | e :: es' => λ s, run es' (exec (step e) s)
  end.

End TokenAuth.

(* ===================================================================== *)
(** ** src/app/index.tsx, second [useAuth]: the SET_SESSION protocol *)
(* ===================================================================== *)

Module SessionAuth.

Record Hook := mkHook {
  session : option Session;
  isReady : bool;
  isLoggingIn : bool;
  webReadyRef : bool;
  sessionSetResolverRef : option nat
}.

Definition hook0 : Hook := mkHook None false false false None.
Definition init : St Hook := mkSt hook0 world0.

Definition setSession (s : option Session) : M (St Hook) unit :=
  on_hook (λ h, mkHook s (isReady h) (isLoggingIn h) (webReadyRef h)
                       (sessionSetResolverRef h)).

Definition setIsReady (b : bool) : M (St Hook) unit :=
  on_hook (λ h, mkHook (session h) b (isLoggingIn h) (webReadyRef h)
                       (sessionSetResolverRef h)).

Definition set_webReadyRef (b : bool) : M (St Hook) unit :=
  on_hook (λ h, mkHook (session h) (isReady h) (isLoggingIn h) b
                       (sessionSetResolverRef h)).

Definition set_sessionSetResolverRef (r : option nat) : M (St Hook) unit :=
  on_hook (λ h, mkHook (session h) (isReady h) (isLoggingIn h) (webReadyRef h) r).

(** [sendSessionToWebView(accessToken, refreshToken): boolean] *)
Definition sendSessionToWebView (accessToken refreshToken : string)
  : M (St Hook) bool :=
  a ← attached;
  if negb a then
    log "[useAuth] WebView not ready, skipping session send";;
    mret false
  else
    emit (Inject (SET_SESSION accessToken refreshToken));;
    log "[useAuth] Session sent to WebView";;
    mret true.

(** [clearSessionInWebView()] *)
Definition clearSessionInWebView : M (St Hook) unit :=
  a ← attached;
  if negb a then mret ()
  else
    emit (Inject CLEAR_SESSION);;
    log "[useAuth] Session clear sent to WebView".

Definition resolver (c : nat) (success : bool) : M (St Hook) unit :=
  clearTimeout c;;
  set_sessionSetResolverRef None;;
  resolve c success.

Definition onTimeout (c : nat) : M (St Hook) unit :=
  set_sessionSetResolverRef None;;
  log "[useAuth] Session set timeout";;
  resolve c false.

(** [syncSessionToWebView(currentSession): Promise<boolean>]; the result is
    the identifier of the returned promise.  Without a session the async
    function returns [true] at once. *)
Definition syncSessionToWebView (currentSession : option Session)
  : M (St Hook) nat :=
  c ← fresh;
  match currentSession with
  | None =>
      clearSessionInWebView;;
      resolve c true;;
      mret c
  | Some cur =>
      prev ← gets (λ s, sessionSetResolverRef (hook s));
      match prev with
      | Some p => resolver p false
      | None => mret ()
      end;;
      setTimeout c 5000;;
      set_sessionSetResolverRef (Some c);;
      sent ← sendSessionToWebView (access_token cur) (refresh_token cur);
      (if sent : bool then mret ()
       else clearTimeout c;;
            set_sessionSetResolverRef None;;
            resolve c false);;
      mret c
  end.

Definition timerFires (c : nat) : M (St Hook) unit :=
  live ← gets (λ s, bool_decide (c ∈ timers (world s)));
  if live : bool then clearTimeout c;; onTimeout c else mret ().

Definition refreshAndSyncSession_begin : M (St Hook) unit :=
  log "[useAuth] Refreshing session...";;
  emit (Provider CallRefreshSession).

Definition awaited (r : RefreshResult)
  : M (St Hook) (option Session * option string) :=
  match r with
  | RefreshData s => mret (s, None)
  | RefreshError m => mret (None, Some m)
  | RefreshRejected e => throw e
  end.

Definition refreshAndSyncSession_resume (r : RefreshResult) : M (St Hook) unit :=
  try_catch
    (res ← awaited r;
     match res with
     | (_, Some _) =>
         log_error "[useAuth] Session refresh failed:"
     | (Some s, None) =>
         log "[useAuth] Session refreshed, syncing to WebView";;
         syncSessionToWebView (Some s);;
         mret ()
     | (None, None) => mret ()
     end)
    (λ _, log_error "[useAuth] Session refresh error:").

Definition refreshAndSyncSession (r : RefreshResult) : M (St Hook) unit :=
  refreshAndSyncSession_begin;; refreshAndSyncSession_resume r.

Definition handleWebMessage (message : WebToAppMessage) : M (St Hook) unit :=
  match message with
  | WEB_READY =>
      log "[useAuth] Web ready signal received";;
      set_webReadyRef true;;
      s ← gets (λ s, session (hook s));
      match s with
      | Some _ => syncSessionToWebView s;; mret ()
      | None => mret ()
      end
  | SESSION_SET success =>
      log "[useAuth] Session set confirmation:";;
      r ← gets (λ s, sessionSetResolverRef (hook s));
      match r with
      | Some c => resolver c success
      | None => mret ()
      end
  | REQUEST_SESSION_REFRESH =>
      log "[useAuth] Session refresh requested from web";;
      refreshAndSyncSession_begin
  | SESSION_EXPIRED =>
      log "[useAuth] Session expired notification from web";;
      emit (Provider CallSignOut)
  | _ => mret ()
  end.

Definition onInitialSession (currentSession : option Session) : M (St Hook) unit :=
  setSession currentSession;;
  setIsReady true;;
  log "[useAuth] Initial session:".

Definition onAuthStateChange (event : AuthChangeEvent) (newSession : option Session)
  : M (St Hook) unit :=
  log "[useAuth] Auth state changed:";;
  setSession newSession;;
  ready ← gets (λ s, webReadyRef (hook s));
  if ready : bool then syncSessionToWebView newSession;; mret () else mret ().

(** [signOut]: everything up to [await supabase.auth.signOut()], after which
    the function only returns. *)
Definition signOut : M (St Hook) unit :=
  log "[useAuth] Signing out...";;
  clearSessionInWebView;;
  set_webReadyRef false;;
  emit (Provider CallSignOut).

Inductive Event :=
| Mount
| Unmount
| InitialSession (s : option Session)
| AuthStateChange (e : AuthChangeEvent) (s : option Session)
| WebMessage (m : WebToAppMessage)
| RefreshSettled (r : RefreshResult)
| SyncSession (s : option Session)
| TimerFires (c : nat)
| SignOutCalled.

Definition step (e : Event) : M (St Hook) unit :=
  match e with
  | Mount => set_attached true
  | Unmount => set_attached false
  | InitialSession s => onInitialSession s
  | AuthStateChange e s => onAuthStateChange e s
  | WebMessage m => handleWebMessage m
  | RefreshSettled r => refreshAndSyncSession_resume r
  | SyncSession s => syncSessionToWebView s;; mret ()
  | TimerFires c => timerFires c
  | SignOutCalled => signOut
  end.

Fixpoint run (es : list Event) : M (St Hook) unit :=
  match es with
  | [] => mret ()
  | e :: es' => λ s, run es' (exec (step e) s)
  end.

End SessionAuth.

(* ===================================================================== *)
(** ** src/hooks/use-smart-back-handler.ts *)
(* ===================================================================== *)

Module BackHandler.

(** [lastBackPressRef], initially [0]. *)
Definition Hook : Type := Z.

Definition init : St Hook := mkSt 0 world0.

(** [showExitToast] *)
Definition showExitToast `{Lib.Config} : M (St Hook) unit :=
  if Lib.IS_ANDROID then emit (ShowToast "한 번 더 누르면 종료됩니다") else mret ().

(** [webViewRef.current?.goBack()] *)
Definition goBack : M (St Hook) unit :=
  a ← attached;
  if a : bool then emit GoBack else mret ().

(** [handleBackPress(): boolean]; [now] is the value of [Date.now()].  The
    result says whether the event is consumed. *)
Definition handleBackPress `{Lib.Config} (routeInfo : RouteInfo) (now : Z)
  : M (St Hook) bool :=
  if negb Lib.IS_ANDROID then mret false
  else if negb (isTabRoute routeInfo) && canGoBack routeInfo then
    goBack;; mret true
  else if isTabRoute routeInfo && negb (isHome routeInfo) then
    Lib.navigateHome;; mret true
  else
    last ← gets hook;
    if bool_decide (now - last < Lib.DOUBLE_TAP_EXIT_DELAY) then
      emit ExitApp;; mret true
    else
      on_hook (λ _, now);;
      showExitToast;;
      mret true.

End BackHandler.

(* ===================================================================== *)
(** ** src/app/index.tsx: route classification on navigation *)
(* ===================================================================== *)

Module Shell.

(** [WebViewNavigation]: the fields [handleNavigation] reads. *)
Record NavState := mkNavState { url : string; nav_canGoBack : bool }.

(** The updater [handleNavigation] passes to [setRouteInfo]; the rewrite of
    a localhost URL for the emulator, which follows it, touches the URL
    state only. *)
Definition handleNavigation `{Lib.Config} (navState : NavState) (prev : RouteInfo)
  : RouteInfo :=
  let path := Lib.extractPath (url navState) in
  let onTabRoute := Lib.isTabRoute path in
  let isHome := bool_decide (path = "/") in
  mkRouteInfo path onTabRoute isHome (nav_canGoBack navState && negb isHome).

End Shell.

(* ===================================================================== *)
(** ** Deep-link callbacks: src/app/auth/callback.tsx and [signInWithGoogle] *)
(* ===================================================================== *)

Module DeepLink.

(** What the callback URL is found to carry, i.e. which provider call the
    code goes on to make. *)
Inductive Credential :=
| TokenPair (access refresh : string)
| ExchangeCode (code : string)
| NoCredential.

#[global] Instance Credential_eq_dec : EqDecision Credential.
Proof. solve_decision. Defined.

(** [h.startsWith('#') ? h.substring(1) : other] *)
Definition after_hash (h other : string) : string :=
  match h with
  | String "#"%char rest => rest
  | _ => other
  end.

(** [if (accessToken && refreshToken) ... else if (code) ... else ...] *)
Definition choose (accessToken refreshToken code : option string) : Credential :=
  if truthy accessToken && truthy refreshToken then
    TokenPair (default "" accessToken) (default "" refreshToken)
  else if truthy code then ExchangeCode (default "" code)
  else NoCredential.

(** callback.tsx, [handleCallback]: both parameter sets are read, the
    fragment's value first. *)
Definition handleCallback_credentials `{Lib.Config} (urlObj : Lib.URL) : Credential :=
  let hashParams := Lib.URLSearchParams_get (after_hash (Lib.hash urlObj) "") in
  let queryParams := Lib.URLSearchParams_get (Lib.search urlObj) in
  let accessToken := js_or (hashParams "access_token") (queryParams "access_token") in
  let refreshToken := js_or (hashParams "refresh_token") (queryParams "refresh_token") in
  let code := js_or (hashParams "code") (queryParams "code") in
  choose accessToken refreshToken code.

(** use-auth.ts, [signInWithGoogle]: one parameter set, the fragment's when
    [url.hash] starts with ['#'], the query's otherwise; [code] is read only
    when the token pair is incomplete. *)
Definition signInWithGoogle_credentials `{Lib.Config} (url : Lib.URL) : Credential :=
  let params :=
    Lib.URLSearchParams_get (after_hash (Lib.hash url) (Lib.search url)) in
  choose (params "access_token") (params "refresh_token") (params "code").

(** The answer of the provider call that establishes the session. *)
Inductive Answer := AnswerOk | AnswerError (message : string) | AnswerRejected (e : string).

Definition await_answer {H} (a : Answer) : M (St H) (option string) :=
  match a with
  | AnswerOk => mret None
  | AnswerError m => mret (Some m)
  | AnswerRejected e => throw e
  end.

(** callback.tsx, [handleCallback]; [initialURL] is the value of
    [Linking.getInitialURL()], and [if (!url)] holds for [null] and for the
    empty string.  Every path ends in [router.replace('/')], which leaves no
    trace here. *)
Definition handleCallback `{Lib.Config} (initialURL : option string) (a : Answer)
  : M (St unit) unit :=
  try_catch
    (log "[AuthCallback] Processing OAuth callback...";;
     log "[AuthCallback] Params:";;
     log "[AuthCallback] Full URL:";;
     if negb (truthy initialURL) then
       log_error "[AuthCallback] No URL found"
     else
       match Lib.URL_parse (default "" initialURL) with
       | None => throw "Invalid URL"
       | Some urlObj =>
           match handleCallback_credentials urlObj with
           | TokenPair access refresh =>
               log "[AuthCallback] Setting session from tokens...";;
               emit (Provider (CallSetSession access refresh));;
               err ← await_answer a;
               match err with
               | Some _ => log_error "[AuthCallback] Session set failed:"
               | None => log "[AuthCallback] Session established for:"
               end
           | ExchangeCode code =>
               log "[AuthCallback] Exchanging code for session...";;
               emit (Provider (CallExchangeCodeForSession code));;
               err ← await_answer a;
               match err with
               | Some _ => log_error "[AuthCallback] Code exchange failed:"
               | None => log "[AuthCallback] Session established via code exchange"
               end
           | NoCredential =>
               log_error "[AuthCallback] No tokens or code found in URL"
           end
       end)
    (λ _, log_error "[AuthCallback] Error:").

(** use-auth.ts, [signInWithGoogle], the branch
    [result.type === 'success' && result.url]; provider errors are rethrown. *)
Definition signInWithGoogle_success `{Lib.Config} {H} (resultUrl : string) (a : Answer)
  : M (St H) unit :=
  try_catch
    (log "[useAuth] OAuth callback received";;
     match Lib.URL_parse resultUrl with
     | None => throw "Invalid URL"
     | Some url =>
         match signInWithGoogle_credentials url with
         | TokenPair access refresh =>
             log "[useAuth] Setting session from tokens...";;
             emit (Provider (CallSetSession access refresh));;
             err ← await_answer a;
             match err with
             | Some m => log_error "[useAuth] Session set failed:";; throw m
             | None => log "[useAuth] Session established for:"
             end
         | ExchangeCode code =>
             log "[useAuth] Exchanging code for session...";;
             emit (Provider (CallExchangeCodeForSession code));;
             err ← await_answer a;
             match err with
             | Some m => log_error "[useAuth] Code exchange failed:";; throw m
             | None => mret ()
             end
         | NoCredential =>
             log_error "[useAuth] No tokens or code in callback URL"
         end
     end)
    (λ e, log_error "[useAuth] OAuth error:";; throw e).

End DeepLink.

(* ===================================================================== *)
(** ** A reference instance of the platform parameters *)
(* ===================================================================== *)

(** Concrete runs need concrete parameters.  [Reference] gives [URL] and
    [URLSearchParams] for inputs of the shape
    [scheme://authority/path?query#fragment] over ASCII, which is the shape of
    every URL in the examples below; percent-decoding works on bytes.  The
    theorems do not depend on it: they hold for every [Lib.Config]. *)
Module Reference.

(** [s] up to the first [c], and what follows it when [c] occurs. *)
Fixpoint split_first (c : ascii) (s : string) : string * option string :=
  match s with
  | EmptyString => (EmptyString, None)
  | String a r =>
      if Ascii.eqb a c then (EmptyString, Some r)
      else let '(b, rest) := split_first c r in (String a b, rest)
  end.

Fixpoint split_on (c : ascii) (s : string) : list string :=
  match s with
  | EmptyString => [EmptyString]
  | String a r =>
      let l := split_on c r in
      if Ascii.eqb a c then EmptyString :: l
      else match l with
           | h :: t => String a h :: t
           | [] => [String a EmptyString]
           end
  end.

Definition hex_value (a : ascii) : option nat :=
  let n := nat_of_ascii a in
  if bool_decide (48 ≤ n ≤ 57)%nat then Some (n - 48)%nat
  else if bool_decide (65 ≤ n ≤ 70)%nat then Some (n - 55)%nat
  else if bool_decide (97 ≤ n ≤ 102)%nat then Some (n - 87)%nat
  else None.

Fixpoint percent_decode (s : string) : string :=
  match s with
  | EmptyString => EmptyString
  | String a rest =>
      if Ascii.eqb a "%"%char then
        match rest with
        | String h1 (String h2 r) =>
            match hex_value h1, hex_value h2 with
            | Some x, Some y => String (ascii_of_nat (16 * x + y)) (percent_decode r)
            | _, _ => String a (percent_decode rest)
            end
        | _ => String a (percent_decode rest)
        end
      else String (if Ascii.eqb a "+"%char then " "%char else a) (percent_decode rest)
  end.

(** The name-value list of [new URLSearchParams(init)]. *)
Definition URLSearchParams (init : string) : list (string * string) :=
  let body := match init with String "?"%char r => r | _ => init end in
  omap (λ seg : string,
          if bool_decide (seg = "") then None
          else let '(n, v) := split_first "="%char seg in
               Some (percent_decode n, percent_decode (default "" v)))
       (split_on "&"%char body).

Fixpoint assoc (name : string) (l : list (string * string)) : option string :=
  match l with
  | [] => None
  | (n, v) :: l' => if bool_decide (n = name) then Some v else assoc name l'
  end.

Definition URLSearchParams_get (init name : string) : option string :=
  assoc name (URLSearchParams init).

Definition is_alpha (a : ascii) : bool :=
  let n := nat_of_ascii a in
  bool_decide (65 ≤ n ≤ 90)%nat || bool_decide (97 ≤ n ≤ 122)%nat.

Definition is_scheme_char (a : ascii) : bool :=
  let n := nat_of_ascii a in
  is_alpha a || bool_decide (48 ≤ n ≤ 57)%nat
  || Ascii.eqb a "+"%char || Ascii.eqb a "-"%char || Ascii.eqb a "."%char.

Fixpoint all_chars (p : ascii → bool) (s : string) : bool :=
  match s with
  | EmptyString => true
  | String a r => p a && all_chars p r
  end.

Definition valid_scheme (s : string) : bool :=
  match s with
  | EmptyString => false
  | String a r => is_alpha a && all_chars is_scheme_char r
  end.

Definition special_scheme (s : string) : bool :=
  bool_decide (s ∈ ["http"; "https"; "ws"; "wss"; "ftp"; "file"]).

Definition with_prefix (c : string) (o : option string) : string :=
  match o with
  | Some (String a r) => c +:+ String a r
  | _ => EmptyString
  end.

(** The components [new URL(s)] gives, without a base, for a URL that is
    already in normal form: a string with no scheme is rejected, and the
    authority, path, query and fragment are cut at the first ["/"], ["?"]
    and ["#"].  What the platform parser does beyond that (resolving dot
    segments, validating host and port, trimming spaces, percent-encoding)
    is not modelled, so the inputs of the concrete runs are URLs that need
    none of it. *)
Definition URL_parse (s : string) : option Lib.URL :=
  let '(s1, fragment) := split_first "#"%char s in
  let '(s2, query) := split_first "?"%char s1 in
  match split_first ":"%char s2 with
  | (scheme, Some rest) =>
      if valid_scheme scheme then
        let pathname :=
          match rest with
          | String "/"%char (String "/"%char r) =>
              match split_first "/"%char r with
              | (_, Some p) => String "/"%char p
              | (_, None) => if special_scheme scheme then "/" else ""
              end
          | _ => rest
          end in
        Some (Lib.mkURL pathname (with_prefix "?" query) (with_prefix "#" fragment))
      else None
  | (_, None) => None
  end.

(** The tab roots of the example configuration. *)
Definition isTabRoute (p : string) : bool :=
  bool_decide (p ∈ ["/"; "/ai"; "/routine"; "/community"; "/profile"]).

Definition config : Lib.Config :=
  {| Lib.IS_ANDROID := true;
     Lib.DOUBLE_TAP_EXIT_DELAY := 2000;
     Lib.isTabRoute := isTabRoute;
     Lib.URL_parse := URL_parse;
     Lib.URLSearchParams_get := URLSearchParams_get |}.

(** The same configuration off the targeted platform. *)
Definition config_ios : Lib.Config :=
  {| Lib.IS_ANDROID := false;
     Lib.DOUBLE_TAP_EXIT_DELAY := 2000;
     Lib.isTabRoute := isTabRoute;
     Lib.URL_parse := URL_parse;
     Lib.URLSearchParams_get := URLSearchParams_get |}.

End Reference.

(* ===================================================================== *)
(** ** src/lib/webview/utils.ts: the emulator rewrite of localhost URLs *)
(* ===================================================================== *)

Module Utils.

(** [IS_DEV_ANDROID] of [./constants], which is not among the source files. *)
Class Constants := { IS_DEV_ANDROID : bool }.

(** What is left of [s] after its prefix [p], when [s.startsWith(p)]. *)
Fixpoint strip_prefix (p s : string) : option string :=
  match p with
  | EmptyString => Some s
  | String a p' =>
      match s with
      | String b s' => if Ascii.eqb a b then strip_prefix p' s' else None
      | EmptyString => None
      end
  end.

(** [s.startsWith(p)] *)
Definition startsWith (s p : string) : bool :=
  match strip_prefix p s with
  | Some _ => true
  | None => false
  end.

(** [s.includes(needle)] *)
Fixpoint includes (s needle : string) {struct s} : bool :=
  match strip_prefix needle s with
  | Some _ => true
  | None =>
      match s with
      | EmptyString => false
      | String _ r => includes r needle
      end
  end.

(** [s.replace(needle, rep)] for a string pattern and a replacement without
    ['$']: the first occurrence is replaced. *)
Fixpoint replace (s needle rep : string) {struct s} : string :=
  match strip_prefix needle s with
  | Some rest => rep +:+ rest
  | None =>
      match s with
      | EmptyString => EmptyString
      | String a r => String a (replace r needle rep)
      end
  end.

(** [toEmulatorUrl] *)
Definition toEmulatorUrl `{Constants} (url : string) : string :=
  if IS_DEV_ANDROID then replace url "localhost" "10.0.2.2" else url.

(** [hasLocalhost] *)
Definition hasLocalhost `{Constants} (url : string) : bool :=
  IS_DEV_ANDROID && includes url "localhost".

End Utils.

(* ===================================================================== *)
(** ** src/hooks/use-auth.ts: [signInWithGoogle] *)
(* ===================================================================== *)

Module SignIn.

(** The answer of [supabase.auth.signInWithOAuth]: [{data: {url}, error}],
    or a rejected promise. *)
Inductive OAuthAnswer :=
| OAuthData (url : option string)
| OAuthError (message : string)
| OAuthRejected (e : string).

(** The answer of [WebBrowser.openAuthSessionAsync]: [{type, url}], or a
    rejected promise. *)
Inductive BrowserAnswer :=
| BrowserResult (type : string) (url : option string)
| BrowserRejected (e : string).

Definition setIsLoggingIn (b : bool) : M (St TokenAuth.Hook) unit :=
  on_hook (λ h, TokenAuth.mkHook (TokenAuth.session h) (TokenAuth.isReady h) b
                  (TokenAuth.lastSentTokenRef h) (TokenAuth.webReadyRef h)
                  (TokenAuth.tokenReceivedResolverRef h)).

(** [try { m } finally { f }] *)
Definition try_finally {S A} (m : M S A) (f : M S unit) : M S A := λ s,
  match m s with
  | (r, s') =>
      match f s' with
      | (Ok _, s'') => (r, s'')
      | (Throw e, s'') => (Throw e, s'')
      end
  end.

Definition await_oauth {H} (a : OAuthAnswer)
  : M (St H) (option string * option string) :=
  match a with
  | OAuthData url => mret (url, None)
  | OAuthError m => mret (None, Some m)
  | OAuthRejected e => throw e
  end.

Definition await_browser {H} (a : BrowserAnswer)
  : M (St H) (string * option string) :=
  match a with
  | BrowserResult type url => mret (type, url)
  | BrowserRejected e => throw e
  end.

(** The branch [result.type === 'success' && result.url], as it stands
    inside the [try] of [signInWithGoogle]. *)
Definition on_success `{Lib.Config} {H} (resultUrl : string) (a : DeepLink.Answer)
  : M (St H) unit :=
  log "[useAuth] OAuth callback received";;
  match Lib.URL_parse resultUrl with
  | None => throw "Invalid URL"
  | Some url =>
      match DeepLink.signInWithGoogle_credentials url with
      | DeepLink.TokenPair access refresh =>
          log "[useAuth] Setting session from tokens...";;
          emit (Provider (CallSetSession access refresh));;
          err ← DeepLink.await_answer a;
          match err with
          | Some m => log_error "[useAuth] Session set failed:";; throw m
          | None => log "[useAuth] Session established for:"
          end
      | DeepLink.ExchangeCode code =>
          log "[useAuth] Exchanging code for session...";;
          emit (Provider (CallExchangeCodeForSession code));;
          err ← DeepLink.await_answer a;
          match err with
          | Some m => log_error "[useAuth] Code exchange failed:";; throw m
          | None => mret ()
          end
      | DeepLink.NoCredential =>
          log_error "[useAuth] No tokens or code in callback URL"
      end
  end.

(** [signInWithGoogle]; [oauth], [browser] and [a] are what its three awaits
    return.  The trace gets a [Provider] entry for the call that establishes
    the session; the two calls before it show through their log lines. *)
Definition signInWithGoogle `{Lib.Config}
    (oauth : OAuthAnswer) (browser : BrowserAnswer) (a : DeepLink.Answer)
  : M (St TokenAuth.Hook) unit :=
  try_finally
    (try_catch
       (setIsLoggingIn true;;
        log "[useAuth] Starting native Google OAuth...";;
        log "[useAuth] Redirect URI:";;
        d ← await_oauth oauth;
        match d with
        | (_, Some m) =>
            log_error "[useAuth] OAuth URL generation failed:";; throw m
        | (url, None) =>
            if truthy url then
              log "[useAuth] Opening browser for OAuth...";;
              r ← await_browser browser;
              if bool_decide (r.1 = "success") && truthy r.2 then
                on_success (default "" r.2) a
              else if bool_decide (r.1 = "cancel") then
                log "[useAuth] OAuth cancelled by user"
              else
                log "[useAuth] OAuth result:"
            else throw "No OAuth URL returned"
        end)
       (λ e, log_error "[useAuth] OAuth error:";; throw e))
    (setIsLoggingIn false).

End SignIn.

(* ===================================================================== *)
(** ** src/app/index.tsx: the screen component *)
(* ===================================================================== *)

Module Screen.

(** The URLs and the initial route of [@/lib/webview], which are not among
    the source files. *)
Class Constants := {
  getInitialUrl : string;
  getLoginUrl : string;
  DEFAULT_ROUTE_INFO : RouteInfo;
  FALLBACK_URL : string
}.

(** What the screen takes from [useAuth], over the state [A] of that hook.
    An async function of the hook is run to its end in one piece. *)
Record UseAuth (A : Type) := mkUseAuth {
  session : A → option Session;
  isReady : A → bool;
  signOut : M (St A) unit;
  signInWithGoogle : M (St A) unit;
  handleWebMessage : WebToAppMessage → M (St A) unit
}.
Arguments session {A} _ _.
Arguments isReady {A} _ _.
Arguments signOut {A} _.
Arguments signInWithGoogle {A} _.
Arguments handleWebMessage {A} _ _.

(** The state cells of the screen, the state of its [useAuth], and the
    cookies [CookieManager.clearByName] has removed. *)
Record Hook (A : Type) := mkHook {
  auth : A;
  url : string;
  routeInfo : RouteInfo;
  isUrlInitialized : bool;
  clearedCookies : list string
}.
Arguments mkHook {A} _ _ _ _ _.
Arguments auth {A} _.
Arguments url {A} _.
Arguments routeInfo {A} _.
Arguments isUrlInitialized {A} _.
Arguments clearedCookies {A} _.

(** [event.nativeEvent.data] after [JSON.parse]: the parse throws, or the
    object has a [type] the protocol does not know, or it is a message. *)
Inductive Parsed :=
| ParseError
| UnknownType
| Message (m : WebToAppMessage).

(** What [CookieManager] does: [get] rejects, or gives the cookies by name;
    [clearByName] rejects for the names [clears] refuses. *)
Inductive Cookies :=
| CookiesRejected (e : string)
| CookiesFound (names : list string) (clears : string → bool).

Section WithAuth.
Context {A : Type} `{Constants} `{Utils.Constants} `{Lib.Config}.
Variable U : UseAuth A.

(** Run a function of the hook on the hook's part of the state. *)
Definition zoom {X} (m : M (St A) X) : M (St (Hook A)) X := λ s,
  match m (mkSt (auth (hook s)) (world s)) with
  | (r, t) =>
      (r, mkSt (mkHook (hook t) (url (hook s)) (routeInfo (hook s))
                       (isUrlInitialized (hook s)) (clearedCookies (hook s)))
               (world t))
  end.

(** A call of an async function whose promise nobody awaits: a rejection
    stays with the promise. *)
Definition detach {S X} (m : M S X) : M S unit := λ s, (Ok (), exec m s).

Definition setUrl (u : string) : M (St (Hook A)) unit :=
  on_hook (λ h, mkHook (auth h) u (routeInfo h) (isUrlInitialized h)
                       (clearedCookies h)).

Definition setRouteInfo (r : RouteInfo) : M (St (Hook A)) unit :=
  on_hook (λ h, mkHook (auth h) (url h) r (isUrlInitialized h)
                       (clearedCookies h)).

Definition setIsUrlInitialized (b : bool) : M (St (Hook A)) unit :=
  on_hook (λ h, mkHook (auth h) (url h) (routeInfo h) b (clearedCookies h)).

(** [await CookieManager.clearByName(webUrl, cookieName)] *)
Definition clearByName (clears : string → bool) (name : string)
  : M (St (Hook A)) unit :=
  if clears name then
    on_hook (λ h, mkHook (auth h) (url h) (routeInfo h) (isUrlInitialized h)
                         (clearedCookies h ++ [name]))
  else throw "clearByName".

(** [for (const cookieName of Object.keys(cookies)) await clearByName(...)] *)
Fixpoint clearAll (clears : string → bool) (names : list string)
  : M (St (Hook A)) unit :=
  match names with
  | [] => mret ()
  | n :: names' => clearByName clears n;; clearAll clears names'
  end.

(** [{ ...DEFAULT_ROUTE_INFO, path: '/login', isHome: false }] *)
Definition login_route : RouteInfo :=
  mkRouteInfo "/login" (isTabRoute DEFAULT_ROUTE_INFO) false
              (canGoBack DEFAULT_ROUTE_INFO).

(** [handleLogout] *)
Definition handleLogout (cookies : Cookies) : M (St (Hook A)) unit :=
  log "[WebView] Logout received, clearing session...";;
  zoom (signOut U);;
  try_catch
    (match cookies with
     | CookiesRejected e => throw e
     | CookiesFound names clears => clearAll clears names
     end)
    (λ _, log "[WebView] Cookie clear skipped (Android)");;
  setUrl getLoginUrl;;
  setRouteInfo login_route;;
  log "[WebView] Redirecting to login...".

(** [handleNativeLogin] *)
Definition handleNativeLogin : M (St (Hook A)) unit :=
  log "[WebView] Native login requested from web";;
  try_catch
    (zoom (signInWithGoogle U))
    (λ _, log_error "[WebView] Native login failed:";;
          a ← attached;
          if a : bool then emit (Inject (LOGIN_ERROR "Native login failed"))
          else mret ()).

(** The effect that picks the first URL once the session is known. *)
Definition initEffect : M (St (Hook A)) unit :=
  s ← gets hook;
  if isReady U (auth s) && negb (isUrlInitialized s) then
    setIsUrlInitialized true;;
    log "[WebView] Session ready, starting with:";;
    setUrl (match session U (auth s) with
            | Some _ => getInitialUrl
            | None => getLoginUrl
            end)
  else mret ().

(** The effect that follows the session: home after a login, the login page
    without a session. *)
Definition sessionEffect : M (St (Hook A)) unit :=
  s ← gets hook;
  if negb (isReady U (auth s)) || negb (isUrlInitialized s) then mret ()
  else
    match session U (auth s) with
    | Some _ =>
        if bool_decide (path (routeInfo s) = "/login")
           || Utils.includes (url s) "/login" then
          log "[WebView] Redirecting to home after login";;
          setUrl getInitialUrl;;
          setRouteInfo DEFAULT_ROUTE_INFO
        else mret ()
    | None =>
        log "[WebView] Session cleared, redirecting to login";;
        if negb (Utils.includes (url s) "/login") then
          setUrl getLoginUrl;;
          setRouteInfo login_route
        else mret ()
    end.

(** [handleMessage]; [handleLogout] and [handleNativeLogin] are started and
    not awaited. *)
Definition handleMessage (data : Parsed) (cookies : Cookies)
  : M (St (Hook A)) unit :=
  match data with
  | ParseError => mret ()
  | UnknownType => mret ()
  | Message m =>
      match m with
      | ROUTE_INFO payload => setRouteInfo payload
      | LOGOUT => detach (handleLogout cookies)
      | REQUEST_LOGIN => detach handleNativeLogin
      | WEB_READY | TOKEN_RECEIVED _ | REQUEST_TOKEN_REFRESH =>
          zoom (handleWebMessage U m)
      | _ => mret ()
      end
  end.

(** [handleLoadRequest(request): boolean] *)
Definition handleLoadRequest (requestUrl : string) : M (St (Hook A)) bool :=
  if Utils.startsWith requestUrl "intent://" then mret false
  else if Utils.hasLocalhost requestUrl then
    setUrl (Utils.toEmulatorUrl requestUrl);;
    mret false
  else mret true.

(** [handleNavigation(navState)] *)
Definition handleNavigation (navState : Shell.NavState) : M (St (Hook A)) unit :=
  prev ← gets (λ s, routeInfo (hook s));
  setRouteInfo (Shell.handleNavigation navState prev);;
  if Utils.hasLocalhost (Shell.url navState) then
    setUrl (Utils.toEmulatorUrl (Shell.url navState))
  else mret ().

End WithAuth.

End Screen.

(* ===================================================================== *)
(** ** The Supabase client's storage adapter (src/unnamed/part_002) *)
(* ===================================================================== *)

Module SecureStoreAdapter.

(** What a call of [SecureStore] does: its promise is fulfilled or
    rejected. *)
Inductive Settled (A : Type) :=
| Fulfilled (a : A)
| Rejected (e : string).
Arguments Fulfilled {A} _.
Arguments Rejected {A} _.

Definition await {H A} (p : Settled A) : M (St H) A :=
  match p with
  | Fulfilled a => mret a
  | Rejected e => throw e
  end.

(** [getItem(key)] *)
Definition getItem {H} (key : string) (getItemAsync : Settled (option string))
  : M (St H) (option string) :=
  try_catch (await getItemAsync)
            (λ _, log_error "[SecureStore] Failed to get item:";; mret None).

(** [setItem(key, value)] *)
Definition setItem {H} (key value : string) (setItemAsync : Settled unit)
  : M (St H) unit :=
  try_catch (await setItemAsync)
            (λ _, log_error "[SecureStore] Failed to set item:").

(** [removeItem(key)] *)
Definition removeItem {H} (key : string) (deleteItemAsync : Settled unit)
  : M (St H) unit :=
  try_catch (await deleteItemAsync)
            (λ _, log_error "[SecureStore] Failed to remove item:").

End SecureStoreAdapter.

(* ===================================================================== *)
(** ** The screen with the SET_TOKEN hook *)
(* ===================================================================== *)

(** [useAuth(webViewRef)] as the screen of src/app/index.tsx uses it, with
    what the provider, the browser and the other handlers do during its
    awaits. *)
Definition token_useAuth `{Lib.Config} (during : M (St TokenAuth.Hook) unit)
    (oauth : SignIn.OAuthAnswer) (browser : SignIn.BrowserAnswer)
    (a : DeepLink.Answer) : Screen.UseAuth TokenAuth.Hook :=
  Screen.mkUseAuth TokenAuth.Hook
    TokenAuth.session TokenAuth.isReady
    (TokenAuth.signOut during)
    (SignIn.signInWithGoogle oauth browser a)
    TokenAuth.handleWebMessage.

(** Constants for concrete runs of the screen: a development build for the
    Android emulator. *)
Module Sample.

Definition screen : Screen.Constants :=
  {| Screen.getInitialUrl := "http://localhost:3000";
     Screen.getLoginUrl := "http://localhost:3000/login";
     Screen.DEFAULT_ROUTE_INFO := mkRouteInfo "/" true true false;
     Screen.FALLBACK_URL := "http://localhost:3000" |}.

Definition dev_android : Utils.Constants := {| Utils.IS_DEV_ANDROID := true |}.

Definition production : Utils.Constants := {| Utils.IS_DEV_ANDROID := false |}.

(** The hook of a screen whose user cancels every sign-in. *)
Definition useAuth : Screen.UseAuth TokenAuth.Hook :=
  token_useAuth (H := Reference.config)
    (TokenAuth.onAuthStateChange SIGNED_OUT None)
    (SignIn.OAuthData (Some "https://accounts.example/o/oauth2"))
    (SignIn.BrowserResult "cancel" None) DeepLink.AnswerOk.

(** The hook of a screen whose provider refuses to make the OAuth URL. *)
Definition useAuth_failing : Screen.UseAuth TokenAuth.Hook :=
  token_useAuth (H := Reference.config)
    (TokenAuth.onAuthStateChange SIGNED_OUT None)
    (SignIn.OAuthError "provider is not enabled")
    (SignIn.BrowserResult "cancel" None) DeepLink.AnswerOk.

(** The screen as it is mounted: the state cells at their initial values
    around the hook's state [a]. *)
Definition mounted (a : St TokenAuth.Hook) : St (Screen.Hook TokenAuth.Hook) :=
  mkSt (Screen.mkHook (hook a) (Screen.getInitialUrl (Constants := screen))
                      (Screen.DEFAULT_ROUTE_INFO (Constants := screen))
                      false [])
       (world a).

End Sample.

(* ===================================================================== *)
(** ** Observations on traces and states *)
(* ===================================================================== *)

(** The commands injected into the content, in order. *)
Definition injections (l : list Effect) : list AppCommand :=
  omap (λ e, match e with Inject c => Some c | _ => None end) l.

(** The provider calls issued, in order. *)
Definition provider_calls (l : list Effect) : list ProviderCall :=
  omap (λ e, match e with Provider c => Some c | _ => None end) l.

(** The error lines written to the console. *)
Definition errors_logged (l : list Effect) : list string :=
  omap (λ e, match e with Console LogError m => Some m | _ => None end) l.

(** A command that tells the content to drop its credentials. *)
Definition is_clear (e : Effect) : bool :=
  match e with
  | Inject CLEAR_SESSION => true
  | Inject (SET_TOKEN None) => true
  | _ => false
  end.

(** A clear command occurs in [l], and no provider sign-out precedes it. *)
Fixpoint clear_before_invalidate (l : list Effect) : bool :=
  match l with
  | [] => false
  | e :: l' =>
      if is_clear e then true
      else if bool_decide (e = Provider CallSignOut) then false
      else clear_before_invalidate l'
  end.

(** The value a send returns tells its caller whether a command was
    injected. *)
Definition reports_delivery {H A} (send : M (St H) A) : Prop :=
  ∃ report : Res A → bool,
    ∀ s, report (send s).1 = bool_decide (injections (emitted send s) ≠ []).

(** The single-slot discipline of the confirmation waiter: the live timers
    are exactly the timer of the call in the slot, and the promises that are
    not settled are exactly that call's and those not yet created. *)
Definition slot_inv (slot : option nat) (w : World) : Prop :=
  (∀ t, t ∈ timers w ↔ slot = Some t) ∧
  (∀ c, settled w !! c = None ↔ (nextId w ≤ c)%nat ∨ slot = Some c) ∧
  (∀ c, slot = Some c → (c < nextId w)%nat).

Definition token_inv (s : St TokenAuth.Hook) : Prop :=
  slot_inv (TokenAuth.tokenReceivedResolverRef (hook s)) (world s).

Definition session_inv (s : St SessionAuth.Hook) : Prop :=
  slot_inv (SessionAuth.sessionSetResolverRef (hook s)) (world s).

(** Two runtimes with the same timers and promises. *)
Definition same_waiters (w w' : World) : Prop :=
  timers w' = timers w ∧ settled w' = settled w ∧ nextId w' = nextId w.

(** Events on which the SET_TOKEN hook resets LastSentToken. *)
Definition resets_last_sent (e : AuthChangeEvent) : bool :=
  match e with
  | SIGNED_IN | TOKEN_REFRESHED => true
  | _ => false
  end.

(** The command that carries [s] to the content in the SET_SESSION protocol. *)
Definition session_command (s : option Session) : AppCommand :=
  match s with
  | Some x => SET_SESSION (access_token x) (refresh_token x)
  | None => CLEAR_SESSION
  end.

(** The provider did not produce a session: it answered with an error or
    its promise was rejected. *)
Definition refresh_failed (r : RefreshResult) : bool :=
  match r with
  | RefreshData _ => false
  | RefreshError _ | RefreshRejected _ => true
  end.

(* ===================================================================== *)
(** ** Further observations *)
(* ===================================================================== *)

(** The outcome of the third rule of [handleBackPress]: exit when the
    recorded press is less than the delay old, else record and notify. *)
Definition double_tap_outcome `{Lib.Config} (now : Z)
    (m : M (St BackHandler.Hook) bool) (s : St BackHandler.Hook) : Prop :=
  (now - hook s < Lib.DOUBLE_TAP_EXIT_DELAY →
   emitted m s = [ExitApp] ∧ hook (exec m s) = hook s)
  ∧ ((Lib.DOUBLE_TAP_EXIT_DELAY ≤ now - hook s)%Z →
     (∃ notice, emitted m s = [ShowToast notice]) ∧ hook (exec m s) = now).

(** The tokens of the SET_TOKEN commands in [l], in order. *)
Definition tokens_sent (l : list Effect) : list (option string) :=
  omap (λ e, match e with Inject (SET_TOKEN t) => Some t | _ => None end) l.

(** The token of the SET_TOKEN command injected last, whatever other
    commands have followed it. *)
Definition last_token_sent {H} (s : St H) : option (option string) :=
  last (tokens_sent (trace (world s))).

(** LastSentToken, when it holds a token, is the token of the last
    SET_TOKEN command. *)
Definition cache_sound (s : St TokenAuth.Hook) : Prop :=
  ∀ t, TokenAuth.lastSentTokenRef (hook s) = Some t →
       last_token_sent s = Some (TokenAuth.token_detail (Some t)).

(** The hook shares the WebView with the screen and the back handler, which
    inject commands of their own (LOGIN_ERROR, NAVIGATE_HOME) and write to
    the console: [others l] is the state after they have added [l]. *)
Definition others (l : list Effect) (s : St TokenAuth.Hook) : St TokenAuth.Hook :=
  mkSt (hook s)
       (mkWorld (webViewRef (world s)) (timers (world s)) (settled (world s))
                (nextId (world s)) (trace (world s) ++ l)).

(** What happens in the application: a handler of the hook runs, or the
    others add to the trace. *)
Inductive AppEvent :=
| HookEvent (e : TokenAuth.Event)
| Others (l : list Effect).

Definition app_step (e : AppEvent) (s : St TokenAuth.Hook) : St TokenAuth.Hook :=
  match e with
  | HookEvent e => exec (TokenAuth.step e) s
  | Others l => others l s
  end.

Fixpoint app_run (es : list AppEvent) (s : St TokenAuth.Hook)
  : St TokenAuth.Hook :=
  match es with
  | [] => s
  | e :: es' => app_run es' (app_step e s)
  end.

(** SET_TOKEN is injected by [sendTokenToWebView] alone: what the others add
    holds no such command. *)
Definition sends_no_token (e : AppEvent) : Prop :=
  match e with
  | HookEvent _ => True
  | Others l => tokens_sent l = []
  end.

(** [v] when it is a non-empty string. *)
Definition nonempty (o : option string) : option string :=
  match o with
  | Some v => if bool_decide (v = "") then None else Some v
  | None => None
  end.

(** The value a callback URL carries for the parameter [k] when both
    locations are checked, the fragment taking precedence: the fragment's
    value when that is a non-empty string, else the query's. *)
Definition carried `{Lib.Config} (u : Lib.URL) (k : string) : option string :=
  match nonempty (Lib.URLSearchParams_get
                    (DeepLink.after_hash (Lib.hash u) "") k) with
  | Some v => Some v
  | None => nonempty (Lib.URLSearchParams_get (Lib.search u) k)
  end.

(** How a provider call that establishes the session ends for its caller
    in [signInWithGoogle]. *)
Definition answer_outcome (a : DeepLink.Answer) : Res unit :=
  match a with
  | DeepLink.AnswerOk => Ok ()
  | DeepLink.AnswerError e | DeepLink.AnswerRejected e => Throw e
  end.

(** The cookies removed before [clearByName] first rejects. *)
Fixpoint cleared_prefix (clears : string → bool) (names : list string)
  : list string :=
  match names with
  | [] => []
  | n :: names' => if clears n then n :: cleared_prefix clears names' else []
  end.

(** How many times a call of SecureStore rejects: once or not at all. *)
Definition rejections {X} (p : SecureStoreAdapter.Settled X) : nat :=
  match p with
  | SecureStoreAdapter.Fulfilled _ => 0%nat
  | SecureStoreAdapter.Rejected _ => 1%nat
  end.

(* ===================================================================== *)
(** ** Proof tools *)
(* ===================================================================== *)

Ltac unfold_m :=
  unfold emitted, exec, result_of, pending,
    Lib.navigateHome, Lib.sendCommand, attached, log, log_error, emit, fresh,
    setTimeout, clearTimeout, resolve, set_attached, on_world, on_hook,
    gets, modify, throw, try_catch in *;
  unfold mbind, M_bind, mret, M_ret in *.

Ltac simpl_m := unfold_m; cbn in *.

Lemma drop_own_length {A} (l k : list A) : drop (length l) (l ++ k) = k.
Proof. by rewrite drop_app_length. Qed.

Lemma drop_own_length_nil {A} (l : list A) : drop (length l) l = [].
Proof. by rewrite drop_all. Qed.

Ltac simpl_trace :=
  rewrite <- ?app_assoc; cbn [app];
  rewrite ?drop_own_length, ?drop_own_length_nil.

Ltac unfold_token :=
  unfold TokenAuth.onAuthStateChange, TokenAuth.signOut, TokenAuth.signOut_begin,
    TokenAuth.signOut_resume, TokenAuth.syncTokenToWebView,
    TokenAuth.refreshAndSyncToken, TokenAuth.refreshAndSyncToken_begin,
    TokenAuth.refreshAndSyncToken_resume, TokenAuth.awaited,
    TokenAuth.sendTokenAndWaitConfirmation, TokenAuth.timerFires,
    TokenAuth.resolver, TokenAuth.onTimeout, TokenAuth.onInitialSession,
    TokenAuth.sendTokenToWebView, TokenAuth.setSession, TokenAuth.setIsReady,
    TokenAuth.set_lastSentTokenRef, TokenAuth.set_webReadyRef,
    TokenAuth.set_tokenReceivedResolverRef in *.

Ltac unfold_session :=
  unfold SessionAuth.onAuthStateChange, SessionAuth.signOut,
    SessionAuth.refreshAndSyncSession, SessionAuth.refreshAndSyncSession_begin,
    SessionAuth.refreshAndSyncSession_resume, SessionAuth.awaited,
    SessionAuth.syncSessionToWebView, SessionAuth.timerFires,
    SessionAuth.resolver, SessionAuth.onTimeout, SessionAuth.onInitialSession,
    SessionAuth.sendSessionToWebView, SessionAuth.clearSessionInWebView,
    SessionAuth.setSession, SessionAuth.setIsReady,
    SessionAuth.set_webReadyRef, SessionAuth.set_sessionSetResolverRef in *.

Ltac inv_cases :=
  rewrite ?elem_of_difference, ?elem_of_union, ?elem_of_difference,
    ?elem_of_singleton, ?lookup_insert;
  repeat case_decide; subst.

Ltac solve_inv :=
  let Ht := fresh "Ht" in
  let Hs := fresh "Hs" in
  let Hn := fresh "Hn" in
  intros (Ht & Hs & Hn); cbn in Ht, Hs, Hn;
  try (match type of Hn with
       | ∀ c, Some ?p = Some c → _ => pose proof (Hn p eq_refl)
       end);
  split_and!; cbn; intros ?; inv_cases;
  rewrite ?Ht, ?Hs;
  (intuition (try congruence; try lia));
  repeat match goal with
         | H : Some _ = Some _ |- _ => injection H as H; subst
         end;
  try lia;
  try match goal with
      | |- _ ∨ Some ?a = Some ?b =>
          destruct (decide (a = b)); [right; congruence | left; lia]
      end.

(** The invariant carries over to a runtime with the same timers and
    promises; conversion sees it. *)
Ltac kept :=
  first [ done
        | intros; match goal with H : slot_inv _ _ |- _ => exact H end ].

Example ref_parse_fragment :
  Reference.URL_parse "app://auth/callback#access_token=A&refresh_token=B"
  = Some (Lib.mkURL "/callback" "" "#access_token=A&refresh_token=B").
Proof. vm_compute. reflexivity. Qed.

(* ===================================================================== *)
(** ** The command channel with no content surface attached (C8) *)
(* ===================================================================== *)

Section Detached.
Context {H : Type}.

Lemma sendCommand_detached (c : AppCommand) (s : St H) :
  webViewRef (world s) = false → Lib.sendCommand c s = (Ok (), s).
Proof. intros Hd. simpl_m. by rewrite Hd. Qed.

Lemma sendCommand_attached (c : AppCommand) (s : St H) :
  webViewRef (world s) = true →
  (Lib.sendCommand c s).1 = Ok () ∧ emitted (Lib.sendCommand c) s = [Inject c].
Proof. intros Ha. simpl_m. rewrite Ha. cbn. by simpl_trace. Qed.

End Detached.

Lemma sendTokenToWebView_detached token force (s : St TokenAuth.Hook) :
  webViewRef (world s) = false →
  (TokenAuth.sendTokenToWebView token force s).1 = Ok false
  ∧ hook (exec (TokenAuth.sendTokenToWebView token force) s) = hook s
  ∧ injections (emitted (TokenAuth.sendTokenToWebView token force) s) = [].
Proof.
  intros Hd. unfold TokenAuth.sendTokenToWebView. simpl_m. rewrite Hd. cbn.
  by simpl_trace.
Qed.

Lemma sendSessionToWebView_detached a r (s : St SessionAuth.Hook) :
  webViewRef (world s) = false →
  (SessionAuth.sendSessionToWebView a r s).1 = Ok false
  ∧ hook (exec (SessionAuth.sendSessionToWebView a r) s) = hook s
  ∧ injections (emitted (SessionAuth.sendSessionToWebView a r) s) = [].
Proof.
  intros Hd. unfold SessionAuth.sendSessionToWebView. simpl_m. rewrite Hd. cbn.
  by simpl_trace.
Qed.

Lemma clearSessionInWebView_detached (s : St SessionAuth.Hook) :
  webViewRef (world s) = false →
  SessionAuth.clearSessionInWebView s = (Ok (), s).
Proof.
  intros Hd. unfold SessionAuth.clearSessionInWebView. simpl_m. by rewrite Hd.
Qed.

Lemma sendTokenToWebView_reports token force :
  reports_delivery (TokenAuth.sendTokenToWebView token force).
Proof.
  exists (λ r, match r with Ok b => b | Throw _ => false end).
  intros [h w]. unfold TokenAuth.sendTokenToWebView, TokenAuth.set_lastSentTokenRef.
  simpl_m. destruct (webViewRef w); cbn; [|by simpl_trace].
  destruct (negb force && bool_decide (TokenAuth.lastSentTokenRef h = token));
    cbn; by simpl_trace.
Qed.

Lemma sendSessionToWebView_reports a r :
  reports_delivery (SessionAuth.sendSessionToWebView a r).
Proof.
  exists (λ r, match r with Ok b => b | Throw _ => false end).
  intros [h w]. unfold SessionAuth.sendSessionToWebView.
  simpl_m. destruct (webViewRef w); cbn; by simpl_trace.
Qed.

(** C8, as the code has it: with no content surface attached every send is a
    no-op that raises nothing.  [sendTokenToWebView] and
    [sendSessionToWebView] return [false], and their result always tells
    whether a command was injected; the bridge's [sendCommand] and
    [clearSessionInWebView] return no value and leave the state as it was. *)
Theorem detached_send_is_noop :
  (∀ (s : St unit) c,
     webViewRef (world s) = false → Lib.sendCommand c s = (Ok (), s))
  ∧ (∀ s, webViewRef (world s) = false →
       SessionAuth.clearSessionInWebView s = (Ok (), s))
  ∧ (∀ s token force,
       webViewRef (world s) = false →
       (TokenAuth.sendTokenToWebView token force s).1 = Ok false
       ∧ hook (exec (TokenAuth.sendTokenToWebView token force) s) = hook s
       ∧ injections (emitted (TokenAuth.sendTokenToWebView token force) s) = [])
  ∧ (∀ s a r,
       webViewRef (world s) = false →
       (SessionAuth.sendSessionToWebView a r s).1 = Ok false
       ∧ hook (exec (SessionAuth.sendSessionToWebView a r) s) = hook s
       ∧ injections (emitted (SessionAuth.sendSessionToWebView a r) s) = [])
  ∧ (∀ token force, reports_delivery (TokenAuth.sendTokenToWebView token force))
  ∧ (∀ a r, reports_delivery (SessionAuth.sendSessionToWebView a r)).
Proof.
  split; [intros; by apply sendCommand_detached|].
  split; [intros; by apply clearSessionInWebView_detached|].
  split; [intros; by apply sendTokenToWebView_detached|].
  split; [intros; by apply sendSessionToWebView_detached|].
  split; [apply sendTokenToWebView_reports | apply sendSessionToWebView_reports].
Qed.

Lemma detached_send_is_noop_witness :
  Lib.sendCommand NAVIGATE_HOME BackHandler.init = (Ok (), BackHandler.init)
  ∧ (TokenAuth.sendTokenToWebView (Some "t") true TokenAuth.init).1 = Ok false
  ∧ (SessionAuth.sendSessionToWebView "a" "r" SessionAuth.init).1 = Ok false.
Proof.
  destruct detached_send_is_noop as (_ & _ & Ht & Hs & _).
  split; [reflexivity|].
  split.
  - apply (Ht TokenAuth.init (Some "t") true). reflexivity.
  - apply (Hs SessionAuth.init "a" "r"). reflexivity.
Defined.

(** C8 as stated fails for the bridge: whether or not [sendCommand] injected
    anything, its caller receives the same value, so nothing computed from
    that value reports the failure. *)
Lemma sendCommand_reports_nothing :
  ¬ reports_delivery (Lib.sendCommand (H:=unit) NAVIGATE_HOME).
Proof.
  intros [report Hr].
  pose proof (Hr (mkSt () world0)) as H0.
  pose proof (Hr (mkSt () (mkWorld true ∅ ∅ 0 []))) as H1.
  vm_compute in H0, H1. congruence.
Qed.

(* ===================================================================== *)
(** ** [sendTokenToWebView]: deduplication and forcing (C3) *)
(* ===================================================================== *)

Section TokenSend.
Import TokenAuth.

Lemma sendTokenToWebView_skip token (s : St Hook) :
  webViewRef (world s) = true →
  lastSentTokenRef (hook s) = token →
  (sendTokenToWebView token false s).1 = Ok false
  ∧ hook (exec (sendTokenToWebView token false) s) = hook s
  ∧ injections (emitted (sendTokenToWebView token false) s) = [].
Proof.
  destruct s as [h w]. cbn. intros Ha Hl. unfold sendTokenToWebView. simpl_m.
  rewrite Ha. cbn. rewrite bool_decide_eq_true_2 by done. cbn. by simpl_trace.
Qed.

Lemma sendTokenToWebView_send token force (s : St Hook) :
  webViewRef (world s) = true →
  force = true ∨ lastSentTokenRef (hook s) ≠ token →
  (sendTokenToWebView token force s).1 = Ok true
  ∧ lastSentTokenRef (hook (exec (sendTokenToWebView token force) s)) = token
  ∧ injections (emitted (sendTokenToWebView token force) s)
    = [SET_TOKEN (token_detail token)].
Proof.
  destruct s as [h w]. cbn. intros Ha Hc.
  unfold sendTokenToWebView, set_lastSentTokenRef. simpl_m. rewrite Ha. cbn.
  assert (negb force && bool_decide (lastSentTokenRef h = token) = false)
    as ->.
  { destruct Hc as [-> | Hne]; [done|].
    rewrite bool_decide_eq_false_2 by done. by destruct force. }
  cbn. by simpl_trace.
Qed.

Lemma sendTokenToWebView_twice token (s : St Hook) :
  injections (emitted (sendTokenToWebView token false)
                      (exec (sendTokenToWebView token false) s)) = [].
Proof.
  destruct (webViewRef (world s)) eqn:Ha.
  - assert (webViewRef (world (exec (sendTokenToWebView token false) s)) = true
            ∧ lastSentTokenRef (hook (exec (sendTokenToWebView token false) s))
              = token) as [Ha' Hl'].
    { unfold sendTokenToWebView, set_lastSentTokenRef. simpl_m. rewrite Ha. cbn.
      case_bool_decide; cbn; done. }
    by apply sendTokenToWebView_skip.
  - assert (webViewRef (world (exec (sendTokenToWebView token false) s)) = false)
      as Ha'.
    { unfold sendTokenToWebView. simpl_m. by rewrite Ha. }
    by apply sendTokenToWebView_detached.
Qed.

End TokenSend.

(** C3, as the code has it: [sendTokenToWebView] sends nothing and returns
    [false] when no content surface is attached; otherwise an unforced call
    whose token, present or absent, equals LastSentToken is skipped, and any
    other call records the token and injects SET_TOKEN, with [null] for an
    absent or empty token.  Two unforced calls in a row with the same token
    send at most once, and the result tells whether a command was sent. *)
Theorem sendTokenToWebView_spec (s : St TokenAuth.Hook) token force :
  let m := TokenAuth.sendTokenToWebView token force in
  (webViewRef (world s) = false →
     (m s).1 = Ok false ∧ hook (exec m s) = hook s
     ∧ injections (emitted m s) = [])
  ∧ (webViewRef (world s) = true → force = false →
     TokenAuth.lastSentTokenRef (hook s) = token →
     (m s).1 = Ok false ∧ hook (exec m s) = hook s
     ∧ injections (emitted m s) = [])
  ∧ (webViewRef (world s) = true →
     force = true ∨ TokenAuth.lastSentTokenRef (hook s) ≠ token →
     (m s).1 = Ok true
     ∧ TokenAuth.lastSentTokenRef (hook (exec m s)) = token
     ∧ injections (emitted m s) = [SET_TOKEN (TokenAuth.token_detail token)])
  ∧ injections (emitted (TokenAuth.sendTokenToWebView token false)
                        (exec (TokenAuth.sendTokenToWebView token false) s)) = []
  ∧ reports_delivery m.
Proof.
  cbn. split; [by apply sendTokenToWebView_detached|].
  split; [intros Ha -> Hl; by apply sendTokenToWebView_skip|].
  split; [by apply sendTokenToWebView_send|].
  split; [apply sendTokenToWebView_twice | apply sendTokenToWebView_reports].
Qed.

Lemma sendTokenToWebView_spec_witness :
  let s := exec (TokenAuth.run [TokenAuth.InitialSession None; TokenAuth.Mount])
                TokenAuth.init in
  (TokenAuth.sendTokenToWebView None true s).1 = Ok true
  ∧ injections (emitted (TokenAuth.sendTokenToWebView None true) s)
    = [SET_TOKEN None]
  ∧ (TokenAuth.sendTokenToWebView (Some "t") false s).1 = Ok true
  ∧ (TokenAuth.sendTokenToWebView None false s).1 = Ok false.
Proof.
  cbn zeta.
  set (s := exec (TokenAuth.run [TokenAuth.InitialSession None; TokenAuth.Mount])
                 TokenAuth.init).
  destruct (sendTokenToWebView_spec s None true) as (_ & _ & H1 & _).
  destruct (sendTokenToWebView_spec s (Some "t") false) as (_ & _ & H2 & _).
  destruct (sendTokenToWebView_spec s None false) as (_ & H3 & _).
  destruct H1 as (? & _ & ?); [reflexivity | by left |].
  destruct H2 as (? & _); [reflexivity | by right |].
  destruct H3 as (? & _); [reflexivity | reflexivity | reflexivity |].
  done.
Defined.

(** C3 as stated fails: a clear is deduplicated like any other token.  Once
    the WebView is mounted for a signed-out user, the hook's manual sync
    sends no clear command, because LastSentToken is already [null]. *)
Lemma clear_is_deduplicated :
  let s := exec (TokenAuth.run [TokenAuth.InitialSession None; TokenAuth.Mount])
                TokenAuth.init in
  webViewRef (world s) = true
  ∧ TokenAuth.session (hook s) = None
  ∧ (TokenAuth.sendTokenToWebView None false s).1 = Ok false
  ∧ injections (emitted (TokenAuth.syncTokenToWebView false) s) = [].
Proof. vm_compute. done. Qed.

(* ===================================================================== *)
(** ** Credential-change notifications (C4) *)
(* ===================================================================== *)

Lemma token_onAuthStateChange_attached e ns (s : St TokenAuth.Hook) :
  webViewRef (world s) = true →
  let s' := exec (TokenAuth.onAuthStateChange e ns) s in
  TokenAuth.session (hook s') = ns
  ∧ TokenAuth.webReadyRef (hook s') = TokenAuth.webReadyRef (hook s)
  ∧ TokenAuth.lastSentTokenRef (hook s') = TokenAuth.token_of ns
  ∧ injections (emitted (TokenAuth.onAuthStateChange e ns) s)
    = [SET_TOKEN (TokenAuth.token_detail (TokenAuth.token_of ns))].
Proof.
  destruct s as [h w]. cbn. intros Ha. unfold_token. simpl_m.
  destruct e; cbn; rewrite Ha; cbn; by simpl_trace.
Qed.

Lemma token_onAuthStateChange_detached e ns (s : St TokenAuth.Hook) :
  webViewRef (world s) = false →
  let s' := exec (TokenAuth.onAuthStateChange e ns) s in
  TokenAuth.session (hook s') = ns
  ∧ TokenAuth.webReadyRef (hook s') = TokenAuth.webReadyRef (hook s)
  ∧ TokenAuth.lastSentTokenRef (hook s')
    = (if resets_last_sent e then None else TokenAuth.lastSentTokenRef (hook s))
  ∧ injections (emitted (TokenAuth.onAuthStateChange e ns) s) = [].
Proof.
  destruct s as [h w]. cbn. intros Ha. unfold_token. simpl_m.
  destruct e; cbn; rewrite Ha; cbn; by simpl_trace.
Qed.

Lemma session_onAuthStateChange_deferred e ns (s : St SessionAuth.Hook) :
  SessionAuth.webReadyRef (hook s) = false →
  let s' := exec (SessionAuth.onAuthStateChange e ns) s in
  SessionAuth.session (hook s') = ns
  ∧ SessionAuth.webReadyRef (hook s') = false
  ∧ injections (emitted (SessionAuth.onAuthStateChange e ns) s) = [].
Proof.
  destruct s as [h w]. cbn. intros Hr. unfold_session. simpl_m.
  rewrite Hr. cbn. by simpl_trace.
Qed.

Lemma session_onAuthStateChange_ready e ns (s : St SessionAuth.Hook) :
  SessionAuth.webReadyRef (hook s) = true →
  webViewRef (world s) = true →
  let s' := exec (SessionAuth.onAuthStateChange e ns) s in
  SessionAuth.session (hook s') = ns
  ∧ injections (emitted (SessionAuth.onAuthStateChange e ns) s)
    = [session_command ns].
Proof.
  destruct s as [h w]. cbn. intros Hr Ha. unfold_session. simpl_m.
  rewrite Hr. cbn. destruct ns as [x|]; cbn.
  - destruct (SessionAuth.sessionSetResolverRef h); cbn; rewrite Ha; cbn;
      by simpl_trace.
  - rewrite Ha. cbn. by simpl_trace.
Qed.

Lemma session_WEB_READY_delivers x (s : St SessionAuth.Hook) :
  SessionAuth.session (hook s) = Some x →
  webViewRef (world s) = true →
  let s' := exec (SessionAuth.handleWebMessage WEB_READY) s in
  SessionAuth.webReadyRef (hook s') = true
  ∧ injections (emitted (SessionAuth.handleWebMessage WEB_READY) s)
    = [SET_SESSION (access_token x) (refresh_token x)].
Proof.
  destruct s as [h w]. cbn. intros Hs Ha. unfold SessionAuth.handleWebMessage.
  unfold_session. simpl_m. rewrite Hs. cbn.
  destruct (SessionAuth.sessionSetResolverRef h); cbn; rewrite Ha; cbn;
    by simpl_trace.
Qed.

(** C4, as the code has it.  The SET_TOKEN hook resets LastSentToken on a
    sign-in or token-refresh event and then force-delivers the new token at
    once whenever a content surface is attached, whatever WebReadyFlag says;
    LastSentToken ends as the delivered token, and stays reset when nothing
    could be delivered.  The SET_SESSION hook keeps no LastSentToken: it
    delivers the new session at once when WebReadyFlag is set and otherwise
    sends nothing until the content announces readiness, when the cached
    session is delivered. *)
Theorem credential_change_delivery :
  (∀ (s : St TokenAuth.Hook) e ns,
     let m := TokenAuth.onAuthStateChange e ns in
     TokenAuth.session (hook (exec m s)) = ns
     ∧ TokenAuth.webReadyRef (hook (exec m s)) = TokenAuth.webReadyRef (hook s)
     ∧ (webViewRef (world s) = true →
        injections (emitted m s)
        = [SET_TOKEN (TokenAuth.token_detail (TokenAuth.token_of ns))]
        ∧ TokenAuth.lastSentTokenRef (hook (exec m s)) = TokenAuth.token_of ns)
     ∧ (webViewRef (world s) = false →
        injections (emitted m s) = []
        ∧ TokenAuth.lastSentTokenRef (hook (exec m s))
          = (if resets_last_sent e then None
             else TokenAuth.lastSentTokenRef (hook s))))
  ∧ (∀ (s : St SessionAuth.Hook) e ns,
       let m := SessionAuth.onAuthStateChange e ns in
       (SessionAuth.webReadyRef (hook s) = false →
        SessionAuth.session (hook (exec m s)) = ns
        ∧ injections (emitted m s) = [])
       ∧ (SessionAuth.webReadyRef (hook s) = true →
          webViewRef (world s) = true →
          SessionAuth.session (hook (exec m s)) = ns
          ∧ injections (emitted m s) = [session_command ns]))
  ∧ (∀ (s : St SessionAuth.Hook) x,
       SessionAuth.session (hook s) = Some x →
       webViewRef (world s) = true →
       SessionAuth.webReadyRef
         (hook (exec (SessionAuth.handleWebMessage WEB_READY) s)) = true
       ∧ injections (emitted (SessionAuth.handleWebMessage WEB_READY) s)
         = [SET_SESSION (access_token x) (refresh_token x)]).
Proof.
  split; [|split].
  - intros s e ns m. subst m.
    destruct (webViewRef (world s)) eqn:Ha.
    + destruct (token_onAuthStateChange_attached e ns s Ha) as (? & ? & ? & ?).
      repeat split; try done.
    + destruct (token_onAuthStateChange_detached e ns s Ha) as (? & ? & ? & ?).
      repeat split; try done.
  - intros s e ns m. subst m. split.
    + intros Hr.
      destruct (session_onAuthStateChange_deferred e ns s Hr) as (? & ? & ?).
      done.
    + intros Hr Ha. by apply session_onAuthStateChange_ready.
  - intros s x Hs Ha. by apply session_WEB_READY_delivers.
Qed.

Lemma credential_change_delivery_witness :
  let ns := Some (mkSession "a" "r") in
  let t := exec (TokenAuth.run [TokenAuth.InitialSession None; TokenAuth.Mount])
                TokenAuth.init in
  let u := exec (SessionAuth.run [SessionAuth.InitialSession None;
                                  SessionAuth.Mount])
                SessionAuth.init in
  injections (emitted (TokenAuth.onAuthStateChange SIGNED_IN ns) t)
  = [SET_TOKEN (Some "a")]
  ∧ injections (emitted (SessionAuth.onAuthStateChange SIGNED_IN ns) u) = []
  ∧ injections (emitted (SessionAuth.handleWebMessage WEB_READY)
                        (exec (SessionAuth.onAuthStateChange SIGNED_IN ns) u))
    = [SET_SESSION "a" "r"].
Proof.
  cbn zeta.
  destruct credential_change_delivery as (Ht & Hs & Hw).
  split; [|split].
  - apply (Ht _ SIGNED_IN (Some (mkSession "a" "r"))). reflexivity.
  - apply (Hs _ SIGNED_IN (Some (mkSession "a" "r"))). reflexivity.
  - apply (Hw _ (mkSession "a" "r")); reflexivity.
Defined.

(** C4 as stated fails: in the SET_TOKEN hook a sign-in is delivered at once
    although WebReadyFlag is not set. *)
Lemma delivery_ignores_web_ready :
  let s := exec (TokenAuth.run [TokenAuth.InitialSession None; TokenAuth.Mount])
                TokenAuth.init in
  TokenAuth.webReadyRef (hook s) = false
  ∧ injections (emitted (TokenAuth.onAuthStateChange SIGNED_IN
                           (Some (mkSession "a" "r"))) s)
    = [SET_TOKEN (Some "a")].
Proof. vm_compute. done. Qed.

(* ===================================================================== *)
(** ** Sign-out: the order of the clear command and the invalidation (C1) *)
(* ===================================================================== *)

Lemma session_signOut_attached (s : St SessionAuth.Hook) :
  webViewRef (world s) = true →
  SessionAuth.signOut s = (Ok (), exec SessionAuth.signOut s)
  ∧ emitted SessionAuth.signOut s
    = [Console LogInfo "[useAuth] Signing out...";
       Inject CLEAR_SESSION;
       Console LogInfo "[useAuth] Session clear sent to WebView";
       Provider CallSignOut]
  ∧ SessionAuth.webReadyRef (hook (exec SessionAuth.signOut s)) = false
  ∧ SessionAuth.session (hook (exec SessionAuth.signOut s))
    = SessionAuth.session (hook s).
Proof.
  destruct s as [h w]. cbn. intros Ha. unfold_session. simpl_m.
  rewrite Ha. cbn. by simpl_trace.
Qed.

Lemma session_signOut_detached (s : St SessionAuth.Hook) :
  webViewRef (world s) = false →
  emitted SessionAuth.signOut s
  = [Console LogInfo "[useAuth] Signing out..."; Provider CallSignOut]
  ∧ SessionAuth.webReadyRef (hook (exec SessionAuth.signOut s)) = false.
Proof.
  destruct s as [h w]. cbn. intros Ha. unfold_session. simpl_m.
  rewrite Ha. cbn. by simpl_trace.
Qed.

Lemma token_signOut_begin (s : St TokenAuth.Hook) :
  emitted TokenAuth.signOut_begin s
  = [Console LogInfo "[useAuth] Signing out..."; Provider CallSignOut]
  ∧ hook (exec TokenAuth.signOut_begin s) = hook s.
Proof. destruct s as [h w]. unfold_token. simpl_m. by simpl_trace. Qed.

Lemma token_signOut_resume (s : St TokenAuth.Hook) :
  let s' := exec TokenAuth.signOut_resume s in
  TokenAuth.webReadyRef (hook s') = false
  ∧ TokenAuth.lastSentTokenRef (hook s') = None
  ∧ TokenAuth.session (hook s') = TokenAuth.session (hook s)
  ∧ injections (emitted TokenAuth.signOut_resume s)
    = (if webViewRef (world s) then [SET_TOKEN None] else []).
Proof.
  destruct s as [h w]. unfold_token. simpl_m.
  destruct (webViewRef w); cbn; by simpl_trace.
Qed.

(** A whole [signOut] of the SET_TOKEN hook, with whatever the other handlers
    do while it is suspended: the provider call comes first, then what they
    add to the trace, then the resets and the clear-token command. *)
Lemma token_signOut_whole during (s : St TokenAuth.Hook) :
  let s1 := exec TokenAuth.signOut_begin s in
  let s2 := exec during s1 in
  let m := TokenAuth.signOut during in
  let cleared :=
    if webViewRef (world s2)
    then [Inject (SET_TOKEN None);
          Console LogInfo "[useAuth] Token sent to WebView"]
    else [Console LogInfo "[useAuth] WebView not ready, skipping token send"] in
  (during s1).1 = Ok () →
  (m s).1 = Ok ()
  ∧ trace (world s1)
    = trace (world s)
      ++ [Console LogInfo "[useAuth] Signing out..."; Provider CallSignOut]
  ∧ hook s1 = hook s
  ∧ trace (world (exec m s)) = trace (world s2) ++ cleared
  ∧ TokenAuth.lastSentTokenRef (hook (exec m s)) = None
  ∧ TokenAuth.webReadyRef (hook (exec m s)) = false
  ∧ TokenAuth.session (hook (exec m s)) = TokenAuth.session (hook s2)
  ∧ (∀ l, trace (world s2) = trace (world s1) ++ l →
          emitted m s
          = [Console LogInfo "[useAuth] Signing out..."; Provider CallSignOut]
            ++ l ++ cleared
          ∧ clear_before_invalidate (emitted m s) = false).
Proof.
  destruct s as [h [wv tm st nx tr]]. cbn zeta.
  unfold_token. unfold_m. cbn.
  destruct (during _)
    as [[[]|e] [[ss2 rd2 lg2 ls2 wr2 slot2] [wv2 tm2 st2 nx2 tr2]]]; cbn;
    [|done].
  intros _. rewrite <- app_assoc. cbn [app].
  destruct wv2; cbn;
    (split_and!; try done; first [intros l ->; by simpl_trace | by simpl_trace]).
Qed.

(** C1, as the code has it.  In the SET_SESSION hook [signOut] injects
    CLEAR_SESSION (when a content surface is attached), clears WebReadyFlag
    and only then asks the provider to invalidate the session, the cached
    session still being in place.  In the SET_TOKEN hook [signOut] asks the
    provider first, the hook's cells being untouched at that moment; whatever
    the other handlers do while it is suspended, LastSentToken and
    WebReadyFlag are cleared and the clear-token command is injected (when a
    surface is attached) after them, at the end of the trace, so that no
    clear command precedes the invalidation. *)
Theorem signOut_order :
  (∀ s : St SessionAuth.Hook,
     webViewRef (world s) = true →
     clear_before_invalidate (emitted SessionAuth.signOut s) = true
     ∧ injections (emitted SessionAuth.signOut s) = [CLEAR_SESSION]
     ∧ provider_calls (emitted SessionAuth.signOut s) = [CallSignOut]
     ∧ SessionAuth.webReadyRef (hook (exec SessionAuth.signOut s)) = false
     ∧ SessionAuth.session (hook (exec SessionAuth.signOut s))
       = SessionAuth.session (hook s))
  ∧ (∀ s : St SessionAuth.Hook,
       webViewRef (world s) = false →
       injections (emitted SessionAuth.signOut s) = []
       ∧ provider_calls (emitted SessionAuth.signOut s) = [CallSignOut]
       ∧ SessionAuth.webReadyRef (hook (exec SessionAuth.signOut s)) = false)
  ∧ (∀ s : St TokenAuth.Hook,
       injections (emitted TokenAuth.signOut_begin s) = []
       ∧ provider_calls (emitted TokenAuth.signOut_begin s) = [CallSignOut]
       ∧ hook (exec TokenAuth.signOut_begin s) = hook s)
  ∧ (∀ s : St TokenAuth.Hook,
       let s' := exec TokenAuth.signOut_resume s in
       TokenAuth.webReadyRef (hook s') = false
       ∧ TokenAuth.lastSentTokenRef (hook s') = None
       ∧ injections (emitted TokenAuth.signOut_resume s)
         = (if webViewRef (world s) then [SET_TOKEN None] else []))
  ∧ (∀ (during : M (St TokenAuth.Hook) unit) (s : St TokenAuth.Hook),
       let s1 := exec TokenAuth.signOut_begin s in
       let s2 := exec during s1 in
       let m := TokenAuth.signOut during in
       let cleared :=
         if webViewRef (world s2)
         then [Inject (SET_TOKEN None);
               Console LogInfo "[useAuth] Token sent to WebView"]
         else [Console LogInfo
                 "[useAuth] WebView not ready, skipping token send"] in
       (during s1).1 = Ok () →
       (m s).1 = Ok ()
       ∧ trace (world s1)
         = trace (world s)
           ++ [Console LogInfo "[useAuth] Signing out..."; Provider CallSignOut]
       ∧ hook s1 = hook s
       ∧ trace (world (exec m s)) = trace (world s2) ++ cleared
       ∧ TokenAuth.lastSentTokenRef (hook (exec m s)) = None
       ∧ TokenAuth.webReadyRef (hook (exec m s)) = false
       ∧ TokenAuth.session (hook (exec m s)) = TokenAuth.session (hook s2)
       ∧ (∀ l, trace (world s2) = trace (world s1) ++ l →
               emitted m s
               = [Console LogInfo "[useAuth] Signing out...";
                  Provider CallSignOut]
                 ++ l ++ cleared
               ∧ clear_before_invalidate (emitted m s) = false)).
Proof.
  split; [|split; [|split; [|split]]].
  - intros s Ha. destruct (session_signOut_attached s Ha) as (_ & -> & ? & ?).
    done.
  - intros s Ha. destruct (session_signOut_detached s Ha) as (-> & ?). done.
  - intros s. destruct (token_signOut_begin s) as (-> & ?). done.
  - intros s. destruct (token_signOut_resume s) as (? & ? & _ & ?). done.
  - intros during s. apply token_signOut_whole.
Qed.

Lemma signOut_order_witness :
  let s := exec (SessionAuth.run [SessionAuth.InitialSession
                                    (Some (mkSession "a" "r"));
                                  SessionAuth.Mount;
                                  SessionAuth.WebMessage WEB_READY])
                SessionAuth.init in
  let t := exec (TokenAuth.run [TokenAuth.InitialSession
                                  (Some (mkSession "a" "r"));
                                TokenAuth.Mount;
                                TokenAuth.WebMessage WEB_READY])
                TokenAuth.init in
  let m := TokenAuth.signOut (TokenAuth.onAuthStateChange SIGNED_OUT None) in
  (clear_before_invalidate (emitted SessionAuth.signOut s) = true
   ∧ SessionAuth.webReadyRef (hook s) = true
   ∧ SessionAuth.webReadyRef (hook (exec SessionAuth.signOut s)) = false)
  ∧ (clear_before_invalidate (emitted m t) = false
     ∧ TokenAuth.webReadyRef (hook t) = true
     ∧ TokenAuth.webReadyRef (hook (exec m t)) = false
     ∧ TokenAuth.lastSentTokenRef (hook (exec m t)) = None).
Proof.
  cbn zeta. destruct signOut_order as (Hs & _ & _ & _ & Ht).
  split; [split; [|split]|].
  - apply Hs. reflexivity.
  - reflexivity.
  - apply Hs. reflexivity.
  - destruct (Ht (TokenAuth.onAuthStateChange SIGNED_OUT None)
                 (exec (TokenAuth.run [TokenAuth.InitialSession
                                         (Some (mkSession "a" "r"));
                                       TokenAuth.Mount;
                                       TokenAuth.WebMessage WEB_READY])
                       TokenAuth.init)
                 eq_refl) as (_ & _ & _ & _ & Hl & Hw & _ & He).
    destruct (He [Console LogInfo "[useAuth] Auth state changed:";
                  Inject (SET_TOKEN None);
                  Console LogInfo "[useAuth] Token sent to WebView"]
                 eq_refl) as (_ & Hc).
    split; [exact Hc|]. split; [reflexivity|]. split; [exact Hw | exact Hl].
Defined.

(** C1 as stated fails for the SET_TOKEN hook: signing out a mounted,
    signed-in shell, with the provider's SIGNED_OUT notification handled
    while [signOut] is suspended, calls the provider before any clear command
    is injected. *)
Lemma token_signOut_invalidates_first :
  let s := exec (TokenAuth.run [TokenAuth.InitialSession
                                  (Some (mkSession "a" "r"));
                                TokenAuth.Mount;
                                TokenAuth.WebMessage WEB_READY])
                TokenAuth.init in
  let m := TokenAuth.signOut (TokenAuth.onAuthStateChange SIGNED_OUT None) in
  webViewRef (world s) = true
  ∧ clear_before_invalidate (emitted m s) = false
  ∧ filter (λ e, bool_decide (e = Provider CallSignOut) || is_clear e)
           (emitted m s)
    = [Provider CallSignOut; Inject (SET_TOKEN None); Inject (SET_TOKEN None)].
Proof. vm_compute. done. Qed.

(* ===================================================================== *)
(** ** Refresh requested by the content: a failing provider (C9) *)
(* ===================================================================== *)

Lemma token_refresh_begin (s : St TokenAuth.Hook) :
  TokenAuth.refreshAndSyncToken_begin s
  = (Ok (), exec TokenAuth.refreshAndSyncToken_begin s)
  ∧ hook (exec TokenAuth.refreshAndSyncToken_begin s) = hook s
  ∧ emitted TokenAuth.refreshAndSyncToken_begin s
    = [Console LogInfo "[useAuth] Refreshing token...";
       Provider CallRefreshSession].
Proof. destruct s as [h w]. unfold_token. simpl_m. by simpl_trace. Qed.

Lemma token_refresh_failure r (s : St TokenAuth.Hook) :
  refresh_failed r = true →
  let m := TokenAuth.refreshAndSyncToken_resume r in
  (m s).1 = Ok ()
  ∧ hook (exec m s) = hook s
  ∧ timers (world (exec m s)) = timers (world s)
  ∧ settled (world (exec m s)) = settled (world s)
  ∧ (∃ line, emitted m s = [Console LogError line]).
Proof.
  destruct s as [h w]. intros Hf. unfold_token.
  destruct r; try discriminate; simpl_m; simpl_trace; eauto 10.
Qed.

Lemma session_refresh_begin (s : St SessionAuth.Hook) :
  SessionAuth.refreshAndSyncSession_begin s
  = (Ok (), exec SessionAuth.refreshAndSyncSession_begin s)
  ∧ hook (exec SessionAuth.refreshAndSyncSession_begin s) = hook s
  ∧ emitted SessionAuth.refreshAndSyncSession_begin s
    = [Console LogInfo "[useAuth] Refreshing session...";
       Provider CallRefreshSession].
Proof. destruct s as [h w]. unfold_session. simpl_m. by simpl_trace. Qed.

Lemma session_refresh_failure r (s : St SessionAuth.Hook) :
  refresh_failed r = true →
  let m := SessionAuth.refreshAndSyncSession_resume r in
  (m s).1 = Ok ()
  ∧ hook (exec m s) = hook s
  ∧ timers (world (exec m s)) = timers (world s)
  ∧ settled (world (exec m s)) = settled (world s)
  ∧ (∃ line, emitted m s = [Console LogError line]).
Proof.
  destruct s as [h w]. intros Hf. unfold_session.
  destruct r; try discriminate; simpl_m; simpl_trace; eauto 10.
Qed.

(** C9: when the provider fails to refresh, by an error answer or by a
    rejected promise, the refresh handler of either hook returns normally,
    leaves the cached session, the refs and the pending waiter as they were,
    injects nothing, calls the provider for nothing else (no sign-out), and
    writes one error line to the console. *)
Theorem refresh_failure_is_swallowed r :
  refresh_failed r = true →
  (∀ s : St TokenAuth.Hook,
     let m := TokenAuth.refreshAndSyncToken r in
     (m s).1 = Ok ()
     ∧ hook (exec m s) = hook s
     ∧ injections (emitted m s) = []
     ∧ provider_calls (emitted m s) = [CallRefreshSession]
     ∧ length (errors_logged (emitted m s)) = 1%nat)
  ∧ (∀ s : St TokenAuth.Hook,
       let m := TokenAuth.refreshAndSyncToken_resume r in
       (m s).1 = Ok ()
       ∧ hook (exec m s) = hook s
       ∧ injections (emitted m s) = []
       ∧ provider_calls (emitted m s) = []
       ∧ length (errors_logged (emitted m s)) = 1%nat)
  ∧ (∀ s : St SessionAuth.Hook,
       let m := SessionAuth.refreshAndSyncSession r in
       (m s).1 = Ok ()
       ∧ hook (exec m s) = hook s
       ∧ injections (emitted m s) = []
       ∧ provider_calls (emitted m s) = [CallRefreshSession]
       ∧ length (errors_logged (emitted m s)) = 1%nat)
  ∧ (∀ s : St SessionAuth.Hook,
       let m := SessionAuth.refreshAndSyncSession_resume r in
       (m s).1 = Ok ()
       ∧ hook (exec m s) = hook s
       ∧ injections (emitted m s) = []
       ∧ provider_calls (emitted m s) = []
       ∧ length (errors_logged (emitted m s)) = 1%nat).
Proof.
  intros Hf. split; [|split; [|split]].
  - intros [h w] m. subst m. unfold_token.
    destruct r; try discriminate; simpl_m; by simpl_trace.
  - intros s m. subst m.
    destruct (token_refresh_failure r s Hf) as (? & ? & _ & _ & line & ->).
    done.
  - intros [h w] m. subst m. unfold_session.
    destruct r; try discriminate; simpl_m; by simpl_trace.
  - intros s m. subst m.
    destruct (session_refresh_failure r s Hf) as (? & ? & _ & _ & line & ->).
    done.
Qed.

Lemma refresh_failure_is_swallowed_witness :
  let s := exec (TokenAuth.run [TokenAuth.InitialSession
                                  (Some (mkSession "a" "r"));
                                TokenAuth.Mount;
                                TokenAuth.WebMessage WEB_READY;
                                TokenAuth.WebMessage REQUEST_TOKEN_REFRESH])
                TokenAuth.init in
  let s' := exec (TokenAuth.refreshAndSyncToken_resume
                    (RefreshRejected "network")) s in
  TokenAuth.session (hook s') = Some (mkSession "a" "r")
  ∧ injections (emitted (TokenAuth.refreshAndSyncToken_resume
                           (RefreshRejected "network")) s) = [].
Proof.
  cbn zeta.
  destruct (refresh_failure_is_swallowed (RefreshRejected "network") eq_refl)
    as (_ & Hr & _).
  split.
  - destruct (Hr (exec (TokenAuth.run
                          [TokenAuth.InitialSession (Some (mkSession "a" "r"));
                           TokenAuth.Mount; TokenAuth.WebMessage WEB_READY;
                           TokenAuth.WebMessage REQUEST_TOKEN_REFRESH])
                       TokenAuth.init)) as (_ & -> & _).
    reflexivity.
  - apply Hr.
Defined.

(* ===================================================================== *)
(** ** The back-press decision (C5) *)
(* ===================================================================== *)

Section BackPress.
Context `{Lib.Config}.
Import BackHandler.

Lemma handleBackPress_off_platform routeInfo now (s : St Hook) :
  Lib.IS_ANDROID = false → handleBackPress routeInfo now s = (Ok false, s).
Proof. intros Hp. unfold handleBackPress. by rewrite Hp. Qed.

Lemma handleBackPress_delegates routeInfo now (s : St Hook) :
  Lib.IS_ANDROID = true →
  isTabRoute routeInfo = false → canGoBack routeInfo = true →
  (handleBackPress routeInfo now s).1 = Ok true
  ∧ hook (exec (handleBackPress routeInfo now) s) = hook s
  ∧ emitted (handleBackPress routeInfo now) s
    = (if webViewRef (world s) then [GoBack] else []).
Proof.
  destruct s as [h w]. intros Hp Ht Hb. unfold handleBackPress, goBack.
  rewrite Hp, Ht, Hb. simpl_m. destruct (webViewRef w); cbn; by simpl_trace.
Qed.

Lemma handleBackPress_goes_home routeInfo now (s : St Hook) :
  Lib.IS_ANDROID = true →
  isTabRoute routeInfo = true → isHome routeInfo = false →
  (handleBackPress routeInfo now s).1 = Ok true
  ∧ hook (exec (handleBackPress routeInfo now) s) = hook s
  ∧ emitted (handleBackPress routeInfo now) s
    = (if webViewRef (world s) then [Inject NAVIGATE_HOME] else []).
Proof.
  destruct s as [h w]. intros Hp Ht Hh. unfold handleBackPress.
  rewrite Hp, Ht, Hh. simpl_m. destruct (webViewRef w); cbn; by simpl_trace.
Qed.

Lemma handleBackPress_exits routeInfo now (s : St Hook) :
  Lib.IS_ANDROID = true →
  negb (isTabRoute routeInfo) && canGoBack routeInfo = false →
  isTabRoute routeInfo && negb (isHome routeInfo) = false →
  now - hook s < Lib.DOUBLE_TAP_EXIT_DELAY →
  (handleBackPress routeInfo now s).1 = Ok true
  ∧ hook (exec (handleBackPress routeInfo now) s) = hook s
  ∧ emitted (handleBackPress routeInfo now) s = [ExitApp].
Proof.
  destruct s as [h w]. cbn. intros Hp H1 H2 Hd. unfold handleBackPress.
  rewrite Hp, H1, H2. simpl_m. rewrite bool_decide_eq_true_2 by done.
  cbn. by simpl_trace.
Qed.

Lemma handleBackPress_warns routeInfo now (s : St Hook) :
  Lib.IS_ANDROID = true →
  negb (isTabRoute routeInfo) && canGoBack routeInfo = false →
  isTabRoute routeInfo && negb (isHome routeInfo) = false →
  (Lib.DOUBLE_TAP_EXIT_DELAY ≤ now - hook s)%Z →
  (handleBackPress routeInfo now s).1 = Ok true
  ∧ hook (exec (handleBackPress routeInfo now) s) = now
  ∧ ∃ notice, emitted (handleBackPress routeInfo now) s = [ShowToast notice].
Proof.
  destruct s as [h w]. cbn. intros Hp H1 H2 Hd.
  unfold handleBackPress, showExitToast.
  rewrite Hp, H1, H2. simpl_m. rewrite bool_decide_eq_false_2 by lia.
  cbn. simpl_trace. eauto.
Qed.

End BackPress.

(** C5: [handleBackPress] applies its rules in order, the first that matches
    deciding.  Off the targeted platform it returns [false] and does nothing.
    On it: (1) off a tab root with [canGoBack], the WebView's [goBack] is
    called; (2) on a tab root other than home, NAVIGATE_HOME is sent whatever
    [canGoBack] is; (3) otherwise the application exits when the press comes
    less than DOUBLE_TAP_EXIT_DELAY after the recorded one, and else the time
    of the press is recorded and the exit notice shown.  On the platform the
    event is always consumed.  [goBack] and the command reach a WebView only
    when one is mounted. *)
Theorem handleBackPress_decision `{Lib.Config} routeInfo now
    (s : St BackHandler.Hook) :
  let m := BackHandler.handleBackPress routeInfo now in
  (Lib.IS_ANDROID = false → m s = (Ok false, s))
  ∧ (Lib.IS_ANDROID = true → (m s).1 = Ok true)
  ∧ (Lib.IS_ANDROID = true →
     isTabRoute routeInfo = false → canGoBack routeInfo = true →
     hook (exec m s) = hook s
     ∧ emitted m s = (if webViewRef (world s) then [GoBack] else []))
  ∧ (Lib.IS_ANDROID = true →
     isTabRoute routeInfo = true → isHome routeInfo = false →
     hook (exec m s) = hook s
     ∧ emitted m s = (if webViewRef (world s) then [Inject NAVIGATE_HOME] else []))
  ∧ (Lib.IS_ANDROID = true →
     ¬ (isTabRoute routeInfo = false ∧ canGoBack routeInfo = true) →
     ¬ (isTabRoute routeInfo = true ∧ isHome routeInfo = false) →
     (now - hook s < Lib.DOUBLE_TAP_EXIT_DELAY →
      hook (exec m s) = hook s ∧ emitted m s = [ExitApp])
     ∧ ((Lib.DOUBLE_TAP_EXIT_DELAY ≤ now - hook s)%Z →
        hook (exec m s) = now ∧ ∃ notice, emitted m s = [ShowToast notice])).
Proof.
  cbn zeta.
  assert (∀ a b : bool, ¬ (a = false ∧ b = true) → negb a && b = false) as Hn1
    by (intros [] []; naive_solver).
  assert (∀ a b : bool, ¬ (a = true ∧ b = false) → a && negb b = false) as Hn2
    by (intros [] []; naive_solver).
  split; [by apply handleBackPress_off_platform|].
  split.
  { intros Hp.
    destruct (negb (isTabRoute routeInfo) && canGoBack routeInfo) eqn:E1.
    - apply andb_true_iff in E1 as [E1 E1']. apply negb_true_iff in E1.
      by apply handleBackPress_delegates.
    - destruct (isTabRoute routeInfo && negb (isHome routeInfo)) eqn:E2.
      + apply andb_true_iff in E2 as [E2 E2']. apply negb_true_iff in E2'.
        by apply handleBackPress_goes_home.
      + destruct (Z.lt_ge_cases (now - hook s) Lib.DOUBLE_TAP_EXIT_DELAY).
        * by apply handleBackPress_exits.
        * by apply handleBackPress_warns. }
  split; [intros; by apply handleBackPress_delegates|].
  split; [intros; by apply handleBackPress_goes_home|].
  intros Hp H1%Hn1 H2%Hn2. split; intros Hd.
  - by apply handleBackPress_exits.
  - by apply handleBackPress_warns.
Qed.

Lemma handleBackPress_decision_witness :
  let attached := mkSt 0 (mkWorld true ∅ ∅ 0 []) in
  let pressed := mkSt 1000000 (mkWorld true ∅ ∅ 0 []) in
  BackHandler.handleBackPress (H := Reference.config_ios)
    (mkRouteInfo "/" true true false) 1001000 pressed = (Ok false, pressed)
  ∧ emitted (BackHandler.handleBackPress (H := Reference.config)
               (mkRouteInfo "/ai/detail" false false true) 1001000) attached
    = [GoBack]
  ∧ emitted (BackHandler.handleBackPress (H := Reference.config)
               (mkRouteInfo "/ai" true false true) 1001000) attached
    = [Inject NAVIGATE_HOME]
  ∧ hook (exec (BackHandler.handleBackPress (H := Reference.config)
                  (mkRouteInfo "/" true true false) 1001000) attached) = 1001000
  ∧ emitted (BackHandler.handleBackPress (H := Reference.config)
               (mkRouteInfo "/" true true false) 1001000) pressed
    = [ExitApp].
Proof.
  cbn zeta. split; [|split; [|split; [|split]]].
  - apply (handleBackPress_decision (H := Reference.config_ios)). reflexivity.
  - apply (handleBackPress_decision (H := Reference.config)); reflexivity.
  - apply (handleBackPress_decision (H := Reference.config)); reflexivity.
  - eapply (handleBackPress_decision (H := Reference.config)
              (mkRouteInfo "/" true true false) 1001000
              (mkSt 0 (mkWorld true ∅ ∅ 0 []))).
    + reflexivity.
    + cbn. intros [? ?]. discriminate.
    + cbn. intros [? ?]. discriminate.
    + cbn. lia.
  - eapply (handleBackPress_decision (H := Reference.config)
              (mkRouteInfo "/" true true false) 1001000
              (mkSt 1000000 (mkWorld true ∅ ∅ 0 []))).
    + reflexivity.
    + cbn. intros [? ?]. discriminate.
    + cbn. intros [? ?]. discriminate.
    + cbn. lia.
Defined.

(* ===================================================================== *)
(** ** Route classification on navigation (C6) *)
(* ===================================================================== *)

Lemma extractPath_malformed `{Lib.Config} url :
  Lib.URL_parse url = None → Lib.extractPath url = "/".
Proof. intros Hp. unfold Lib.extractPath. by rewrite Hp. Qed.

Lemma extractPath_parsed `{Lib.Config} url u :
  Lib.URL_parse url = Some u → Lib.extractPath url = Lib.pathname u.
Proof. intros Hp. unfold Lib.extractPath. by rewrite Hp. Qed.

(** C6: on every navigation event [handleNavigation] takes the path of the
    URL, or ["/"] when the URL does not parse; [isHome] holds exactly when
    that path is ["/"]; and at home [canGoBack] is [false] whatever the
    WebView reports, while elsewhere it is the WebView's value. *)
Theorem handleNavigation_classifies `{Lib.Config} navState prev :
  let r := Shell.handleNavigation navState prev in
  (Lib.URL_parse (Shell.url navState) = None → path r = "/")
  ∧ (∀ u, Lib.URL_parse (Shell.url navState) = Some u → path r = Lib.pathname u)
  ∧ (isHome r = true ↔ path r = "/")
  ∧ (isHome r = true → canGoBack r = false)
  ∧ (isHome r = false → canGoBack r = Shell.nav_canGoBack navState)
  ∧ isTabRoute r = Lib.isTabRoute (path r).
Proof.
  cbn. split; [apply extractPath_malformed|].
  split; [intros u; apply extractPath_parsed|].
  split; [apply bool_decide_eq_true|].
  split; [intros ->; apply andb_false_r|].
  split; [intros ->; apply andb_true_r | done].
Qed.

Lemma handleNavigation_classifies_witness :
  let r := Shell.handleNavigation (H := Reference.config)
             (Shell.mkNavState "not a url" true)
             (mkRouteInfo "/ai" true false true) in
  path r = "/" ∧ isHome r = true ∧ canGoBack r = false.
Proof.
  cbn zeta.
  destruct (handleNavigation_classifies (H := Reference.config)
              (Shell.mkNavState "not a url" true)
              (mkRouteInfo "/ai" true false true)) as (Hm & _ & Hh & Hb & _).
  assert (path (Shell.handleNavigation (H := Reference.config)
                  (Shell.mkNavState "not a url" true)
                  (mkRouteInfo "/ai" true false true)) = "/") as Hp
    by (apply Hm; reflexivity).
  split; [exact Hp|].
  split; [by apply Hh | apply Hb; by apply Hh].
Defined.

(* ===================================================================== *)
(** ** Credentials in the callback URL (C7) *)
(* ===================================================================== *)

Section Callback.
Context `{Lib.Config}.
Import DeepLink.

Lemma truthy_Some a : a ≠ "" → truthy (Some a) = true.
Proof. intros Ha. cbn. by rewrite bool_decide_eq_false_2. Qed.

Lemma js_or_truthy a b : a ≠ "" → js_or (Some a) b = Some a.
Proof. intros Ha. unfold js_or. by rewrite truthy_Some. Qed.

Lemma js_or_None b : js_or None b = b.
Proof. done. Qed.

Lemma choose_pair a r code :
  a ≠ "" → r ≠ "" → choose (Some a) (Some r) code = TokenPair a r.
Proof. intros Ha Hr. unfold choose. by rewrite !truthy_Some. Qed.

Lemma choose_code a r c :
  truthy a && truthy r = false → c ≠ "" →
  choose a r (Some c) = ExchangeCode c.
Proof. intros Ht Hc. unfold choose. by rewrite Ht, truthy_Some. Qed.

Lemma handleCallback_fragment_pair (u : Lib.URL) a r :
  Lib.URLSearchParams_get (after_hash (Lib.hash u) "") "access_token" = Some a →
  Lib.URLSearchParams_get (after_hash (Lib.hash u) "") "refresh_token" = Some r →
  a ≠ "" → r ≠ "" →
  handleCallback_credentials u = TokenPair a r.
Proof.
  intros Ha Hr ? ?. unfold handleCallback_credentials.
  rewrite Ha, Hr, !js_or_truthy by done. by apply choose_pair.
Qed.

Lemma handleCallback_query_code (u : Lib.URL) c :
  Lib.URLSearchParams_get (after_hash (Lib.hash u) "") "access_token" = None →
  Lib.URLSearchParams_get (after_hash (Lib.hash u) "") "refresh_token" = None →
  Lib.URLSearchParams_get (after_hash (Lib.hash u) "") "code" = None →
  truthy (Lib.URLSearchParams_get (Lib.search u) "access_token")
  && truthy (Lib.URLSearchParams_get (Lib.search u) "refresh_token") = false →
  Lib.URLSearchParams_get (Lib.search u) "code" = Some c → c ≠ "" →
  handleCallback_credentials u = ExchangeCode c.
Proof.
  intros Ha Hr Hc Hq Hqc ?. unfold handleCallback_credentials.
  rewrite Ha, Hr, Hc, !js_or_None, Hqc. by apply choose_code.
Qed.

Lemma signInWithGoogle_reads_fragment_only (u u' : Lib.URL) frag :
  Lib.hash u = String "#"%char frag → Lib.hash u' = Lib.hash u →
  signInWithGoogle_credentials u = signInWithGoogle_credentials u'.
Proof.
  intros Hh Hh'. unfold signInWithGoogle_credentials. by rewrite Hh', Hh.
Qed.

Lemma signInWithGoogle_fragment_pair (u : Lib.URL) frag a r :
  Lib.hash u = String "#"%char frag →
  Lib.URLSearchParams_get frag "access_token" = Some a →
  Lib.URLSearchParams_get frag "refresh_token" = Some r →
  a ≠ "" → r ≠ "" →
  signInWithGoogle_credentials u = TokenPair a r.
Proof.
  intros Hh Ha Hr ? ?. unfold signInWithGoogle_credentials.
  rewrite Hh. cbn. rewrite Ha, Hr. by apply choose_pair.
Qed.

Lemma signInWithGoogle_query_code (u : Lib.URL) c :
  Lib.hash u = "" →
  truthy (Lib.URLSearchParams_get (Lib.search u) "access_token")
  && truthy (Lib.URLSearchParams_get (Lib.search u) "refresh_token") = false →
  Lib.URLSearchParams_get (Lib.search u) "code" = Some c → c ≠ "" →
  signInWithGoogle_credentials u = ExchangeCode c.
Proof.
  intros Hh Hq Hc ?. unfold signInWithGoogle_credentials.
  rewrite Hh. cbn. rewrite Hc. by apply choose_code.
Qed.

(** [choose] on values that may be empty is [choose] on what is left of
    them when the empty ones are dropped. *)
Lemma choose_nonempty a r c :
  choose a r c
  = match nonempty a, nonempty r with
    | Some x, Some y => TokenPair x y
    | _, _ => match nonempty c with
              | Some z => ExchangeCode z
              | None => NoCredential
              end
    end.
Proof.
  unfold choose, nonempty, truthy.
  destruct a as [x|], r as [y|], c as [z|]; repeat case_bool_decide; done.
Qed.

Lemma nonempty_js_or a b :
  nonempty (js_or a b)
  = match nonempty a with Some v => Some v | None => nonempty b end.
Proof.
  unfold js_or, nonempty, truthy. destruct a as [x|]; [|done].
  destruct (bool_decide (x = "")) eqn:E; cbn; by rewrite ?E.
Qed.

Lemma handleCallback_carried (u : Lib.URL) :
  handleCallback_credentials u
  = match carried u "access_token", carried u "refresh_token" with
    | Some a, Some r => TokenPair a r
    | _, _ => match carried u "code" with
              | Some c => ExchangeCode c
              | None => NoCredential
              end
    end.
Proof.
  unfold handleCallback_credentials, carried.
  by rewrite choose_nonempty, !nonempty_js_or.
Qed.

End Callback.

(** X16: the deep-link rule on callback.tsx. [handleCallback] checks both the
    fragment and the query for each of access_token, refresh_token and
    code, the fragment taking precedence: with [carried u k] the
    fragment's non-empty value for [k], or else the query's, a carried
    token pair is taken, whichever components its halves come from;
    without a complete pair a carried code selects the code exchange; and
    with neither the URL carries no credential. In particular a non-empty
    pair in the fragment is taken whatever the query holds, and with
    nothing in the fragment and no complete pair in the query a non-empty
    code of the query is exchanged. *)
Theorem callback_credentials `{Lib.Config} (u : Lib.URL) :
  DeepLink.handleCallback_credentials u
  = match carried u "access_token", carried u "refresh_token" with
    | Some a, Some r => DeepLink.TokenPair a r
    | _, _ => match carried u "code" with
              | Some c => DeepLink.ExchangeCode c
              | None => DeepLink.NoCredential
              end
    end
  ∧ (∀ a r,
       Lib.URLSearchParams_get (DeepLink.after_hash (Lib.hash u) "") "access_token"
       = Some a →
       Lib.URLSearchParams_get (DeepLink.after_hash (Lib.hash u) "") "refresh_token"
       = Some r →
       a ≠ "" → r ≠ "" →
       DeepLink.handleCallback_credentials u = DeepLink.TokenPair a r)
  ∧ (∀ c,
       Lib.URLSearchParams_get (DeepLink.after_hash (Lib.hash u) "") "access_token"
       = None →
       Lib.URLSearchParams_get (DeepLink.after_hash (Lib.hash u) "") "refresh_token"
       = None →
       Lib.URLSearchParams_get (DeepLink.after_hash (Lib.hash u) "") "code"
       = None →
       truthy (Lib.URLSearchParams_get (Lib.search u) "access_token")
       && truthy (Lib.URLSearchParams_get (Lib.search u) "refresh_token") = false →
       Lib.URLSearchParams_get (Lib.search u) "code" = Some c → c ≠ "" →
       DeepLink.handleCallback_credentials u = DeepLink.ExchangeCode c).
Proof.
  split; [apply handleCallback_carried|].
  split; [intros; by apply handleCallback_fragment_pair|].
  intros; by apply handleCallback_query_code.
Qed.

Lemma callback_credentials_witness :
  let tokens := Lib.mkURL "/callback" "" "#access_token=A&refresh_token=B" in
  let code := Lib.mkURL "/callback" "?code=C" "" in
  let mixed := Lib.mkURL "/callback" "?access_token=A&code=C"
                         "#refresh_token=B&access_token=" in
  Reference.URL_parse "app://auth/callback#access_token=A&refresh_token=B"
  = Some tokens
  ∧ Reference.URL_parse "app://auth/callback?code=C" = Some code
  ∧ Reference.URL_parse
      "app://auth/callback?access_token=A&code=C#refresh_token=B&access_token="
    = Some mixed
  ∧ DeepLink.handleCallback_credentials (H := Reference.config) tokens
    = DeepLink.TokenPair "A" "B"
  ∧ DeepLink.handleCallback_credentials (H := Reference.config) code
    = DeepLink.ExchangeCode "C"
  ∧ DeepLink.handleCallback_credentials (H := Reference.config) mixed
    = DeepLink.TokenPair "A" "B".
Proof.
  cbn zeta. split; [reflexivity|]. split; [reflexivity|]. split; [reflexivity|].
  destruct (callback_credentials (H := Reference.config)
              (Lib.mkURL "/callback" "" "#access_token=A&refresh_token=B"))
    as (_ & H1 & _).
  destruct (callback_credentials (H := Reference.config)
              (Lib.mkURL "/callback" "?code=C" ""))
    as (_ & _ & H2).
  destruct (callback_credentials (H := Reference.config)
              (Lib.mkURL "/callback" "?access_token=A&code=C"
                         "#refresh_token=B&access_token="))
    as (H3 & _).
  split; [apply H1; [reflexivity | reflexivity | discriminate | discriminate]|].
  split; [apply H2; [reflexivity | reflexivity | reflexivity | reflexivity
                    | reflexivity | discriminate]|].
  rewrite H3. reflexivity.
Defined.

(** C7 holds on callback.tsx and fails on [signInWithGoogle], which reads
    one component only (the fragment whenever the URL has one).  At the
    callback URL "app://auth/callback?code=C#state=x" the fragment carries no
    credentials and the query carries the code: [signInWithGoogle] finds
    nothing, writes "No tokens or code in callback URL" and returns without a
    provider call, where [handleCallback] of callback.tsx, given the same
    URL, exchanges the code. *)
Lemma signInWithGoogle_misses_query_code :
  let callback := "app://auth/callback?code=C#state=x" in
  let m := SignIn.signInWithGoogle (H := Reference.config)
             (SignIn.OAuthData (Some "https://accounts.example/o/oauth2"))
             (SignIn.BrowserResult "success" (Some callback))
             DeepLink.AnswerOk in
  let sibling := DeepLink.handleCallback (H := Reference.config)
                   (Some callback) DeepLink.AnswerOk in
  (∃ u, Reference.URL_parse callback = Some u
        ∧ Lib.hash u = "#state=x"
        ∧ Lib.search u = "?code=C"
        ∧ Reference.URLSearchParams_get (Lib.search u) "code" = Some "C"
        ∧ DeepLink.signInWithGoogle_credentials (H := Reference.config) u
          = DeepLink.NoCredential
        ∧ DeepLink.handleCallback_credentials (H := Reference.config) u
          = DeepLink.ExchangeCode "C")
  ∧ (m TokenAuth.init).1 = Ok ()
  ∧ provider_calls (emitted m TokenAuth.init) = []
  ∧ errors_logged (emitted m TokenAuth.init)
    = ["[useAuth] No tokens or code in callback URL"]
  ∧ provider_calls (emitted sibling (mkSt () world0))
    = [CallExchangeCodeForSession "C"].
Proof.
  cbn zeta. split; [|vm_compute; done].
  exists (Lib.mkURL "/callback" "?code=C" "#state=x"). vm_compute. done.
Qed.

(* ===================================================================== *)
(** ** The confirmation waiter: one slot, one timer (C2, C10) *)
(* ===================================================================== *)

Section SlotInvariant.
Implicit Types (a : bool) (tr : list Effect) (tm : gset nat)
  (st : gmap nat bool) (nx p : nat).

Lemma slot_inv_same slot w w' :
  same_waiters w w' → slot_inv slot w → slot_inv slot w'.
Proof.
  destruct w, w'. intros (Ht & Hs & Hn). cbn in *. by subst.
Qed.

Lemma slot_inv_unsettled slot w c :
  slot_inv slot w → slot = Some c → settled w !! c = None.
Proof. intros (_ & Hs & _) ->. apply Hs. by right. Qed.

Lemma slot_inv_fresh slot w :
  slot_inv slot w → settled w !! nextId w = None.
Proof. intros (_ & Hs & _). apply Hs. left. lia. Qed.

Lemma slot_inv_pending slot w c :
  slot_inv slot w → (c < nextId w)%nat → settled w !! c = None → slot = Some c.
Proof. intros (_ & Hs & _) Hlt Hc. apply Hs in Hc as [?|?]; [lia | done]. Qed.

Lemma slot_inv_live slot w t :
  slot_inv slot w → t ∈ timers w → slot = Some t.
Proof. intros (Ht & _) ?. by apply Ht. Qed.

Lemma slot_inv_idle w : slot_inv None w → timers w = ∅.
Proof.
  intros (Ht & _). apply set_eq. intros t. rewrite Ht, elem_of_empty.
  split; [discriminate | done].
Qed.

Lemma inv_supersede a a' tr tr' tm st nx p :
  slot_inv (Some p) (mkWorld a tm st nx tr) →
  slot_inv (Some nx)
    (mkWorld a' ({[nx]} ∪ tm ∖ {[p]}) (<[p:=false]> st) (S nx) tr').
Proof. solve_inv. Qed.

Lemma inv_register a a' tr tr' tm st nx :
  slot_inv None (mkWorld a tm st nx tr) →
  slot_inv (Some nx) (mkWorld a' ({[nx]} ∪ tm) st (S nx) tr').
Proof. solve_inv. Qed.

Lemma inv_release a a' tr tr' tm st nx p b :
  slot_inv (Some p) (mkWorld a tm st nx tr) →
  slot_inv None (mkWorld a' (tm ∖ {[p]}) (<[p:=b]> st) nx tr').
Proof. solve_inv. Qed.

Lemma inv_supersede_failed a a' tr tr' tm st nx p :
  slot_inv (Some p) (mkWorld a tm st nx tr) →
  slot_inv None
    (mkWorld a' (({[nx]} ∪ tm ∖ {[p]}) ∖ {[nx]})
             (<[nx:=false]> (<[p:=false]> st)) (S nx) tr').
Proof. solve_inv. Qed.

Lemma inv_register_failed a a' tr tr' tm st nx :
  slot_inv None (mkWorld a tm st nx tr) →
  slot_inv None
    (mkWorld a' (({[nx]} ∪ tm) ∖ {[nx]}) (<[nx:=false]> st) (S nx) tr').
Proof. solve_inv. Qed.

Lemma inv_settle_fresh slot a a' tr tr' tm st nx b :
  slot_inv slot (mkWorld a tm st nx tr) →
  slot_inv slot (mkWorld a' tm (<[nx:=b]> st) (S nx) tr').
Proof. destruct slot as [p|]; solve_inv. Qed.

Lemma slot_inv_world0 : slot_inv None world0.
Proof.
  split_and!; cbn; intros c.
  - rewrite elem_of_empty. split; [done | discriminate].
  - rewrite lookup_empty. split; [intros _; left; lia | done].
  - done.
Qed.

End SlotInvariant.

Section TokenWaiter.
Import TokenAuth.

Lemma token_call_inv token timeout (s : St Hook) :
  token_inv s →
  token_inv (exec (sendTokenAndWaitConfirmation token timeout) s).
Proof.
  destruct s as [[ss rd lg ls wr slot] [wv tm st nx tr]].
  unfold token_inv. cbn. intros Hinv.
  pose proof (slot_inv_fresh _ _ Hinv) as Hf. cbn in Hf.
  unfold_token. simpl_m. destruct slot as [p|]; cbn.
  - pose proof (slot_inv_unsettled _ _ p Hinv eq_refl) as Hp. cbn in Hp.
    assert (p ≠ nx) as Hne by (intros ->; destruct Hinv as (_ & _ & Hn);
                                specialize (Hn nx eq_refl); cbn in Hn; lia).
    rewrite Hp. cbn. destruct wv; cbn.
    + by eapply inv_supersede.
    + rewrite lookup_insert_ne, Hf by done. cbn. by eapply inv_supersede_failed.
  - destruct wv; cbn.
    + by eapply inv_register.
    + rewrite Hf. cbn. by eapply inv_register_failed.
Qed.

Lemma token_step_inv e (s : St Hook) :
  token_inv s → token_inv (exec (step e) s).
Proof.
  destruct e as [| |cs|ev ns|m|r|token timeout|c|force| |]; cbn [step].
  - destruct s as [h [wv tm st nx tr]]. unfold token_inv. simpl_m. kept.
  - destruct s as [h [wv tm st nx tr]]. unfold token_inv. simpl_m. kept.
  - destruct s as [[ss rd lg ls wr slot] [wv tm st nx tr]]. unfold token_inv. unfold_token. simpl_m.
    destruct (truthy _); cbn; [|kept].
    destruct wv; cbn; [|kept]. case_bool_decide; cbn; kept.
  - destruct s as [[ss rd lg ls wr slot] [wv tm st nx tr]]. unfold token_inv. unfold_token. simpl_m.
    destruct ev; cbn; destruct wv; cbn; kept.
  - destruct s as [[ss rd lg ls wr slot] [wv tm st nx tr]].
    unfold token_inv, handleWebMessage. intros Hinv.
    destruct m; try kept; unfold_token; simpl_m.
    + destruct (truthy _); cbn; [|kept]. destruct wv; cbn; kept.
    + destruct slot as [p|]; cbn; [|kept].
      pose proof (slot_inv_unsettled _ _ p Hinv eq_refl) as Hp. cbn in Hp.
      rewrite Hp. by eapply inv_release.
  - destruct s as [[ss rd lg ls wr slot] [wv tm st nx tr]]. unfold token_inv. unfold_token.
    destruct r as [[x|]| |]; simpl_m; try kept.
    destruct wv; cbn; kept.
  - intros Hinv. pose proof (token_call_inv token timeout s Hinv) as Hc.
    unfold exec in *. unfold mbind, M_bind, mret, M_ret.
    by destruct (sendTokenAndWaitConfirmation token timeout s) as [[] ?].
  - destruct s as [[ss rd lg ls wr slot] [wv tm st nx tr]].
    unfold token_inv. intros Hinv. unfold_token. simpl_m.
    case_bool_decide as Hlive; cbn; [|kept].
    pose proof (slot_inv_live _ _ c Hinv Hlive) as Hs. cbn in Hs. subst slot.
    pose proof (slot_inv_unsettled _ _ c Hinv eq_refl) as Hp. cbn in Hp.
    rewrite Hp. by eapply inv_release.
  - destruct s as [[ss rd lg ls wr slot] [wv tm st nx tr]]. unfold token_inv. unfold_token. simpl_m.
    destruct wv; cbn; [|kept].
    destruct (negb force && _); cbn; kept.
  - destruct s as [[ss rd lg ls wr slot] [wv tm st nx tr]]. unfold token_inv. unfold_token. simpl_m. kept.
  - destruct s as [[ss rd lg ls wr slot] [wv tm st nx tr]]. unfold token_inv. unfold_token. simpl_m.
    destruct wv; cbn; kept.
Qed.

Lemma token_run_inv es (s : St Hook) :
  token_inv s → token_inv (exec (run es) s).
Proof.
  revert s. induction es as [|e es IH]; intros s Hinv; [done|].
  apply (IH (exec (step e) s)). by apply token_step_inv.
Qed.

Lemma token_reachable_inv es : token_inv (exec (run es) init).
Proof. apply token_run_inv, slot_inv_world0. Qed.

Lemma token_step_returns e (s : St Hook) : (step e s).1 = Ok ().
Proof.
  destruct s as [[ss rd lg ls wr slot] [wv tm st nx tr]].
  destruct e as [| |cs|ev ns|m|r|token timeout|c|force| |]; cbn [step];
    try done; unfold_token.
  - simpl_m. destruct (truthy _); cbn; [|done].
    destruct wv; cbn; [|done]. case_bool_decide; cbn; done.
  - simpl_m. destruct ev; cbn; destruct wv; cbn; done.
  - unfold handleWebMessage. destruct m; try done; unfold_token; simpl_m.
    + destruct (truthy _); cbn; [|done]. destruct wv; cbn; done.
    + destruct slot; cbn; done.
  - destruct r as [[x|]| |]; simpl_m; try done. destruct wv; cbn; done.
  - simpl_m. destruct slot; cbn; destruct wv; cbn; done.
  - simpl_m. case_bool_decide; cbn; done.
  - simpl_m. destruct wv; cbn; [|done]. destruct (negb force && _); cbn; done.
  - simpl_m. destruct wv; cbn; done.
Qed.






Lemma token_call_detached token timeout (s : St Hook) :
  token_inv s → webViewRef (world s) = false →
  let r := sendTokenAndWaitConfirmation token timeout s in
  r.1 = Ok (nextId (world s))
  ∧ result_of (nextId (world s)) r.2 = Some false
  ∧ tokenReceivedResolverRef (hook r.2) = None
  ∧ timers (world r.2) = ∅
  ∧ (∀ c, ¬ pending c r.2).
Proof.
  intros Hinv Hd. cbn zeta.
  pose proof (token_call_inv token timeout s Hinv) as Hinv'.
  destruct s as [[ss rd lg ls wr slot] [wv tm st nx tr]].
  cbn in Hd. subst wv.
  pose proof (slot_inv_fresh _ _ Hinv) as Hf. cbn in Hf.
  unfold token_inv, exec in Hinv'. revert Hinv'.
  unfold_token. simpl_m. destruct slot as [p|]; cbn.
  - pose proof (slot_inv_unsettled _ _ p Hinv eq_refl) as Hp. cbn in Hp.
    assert (p ≠ nx) as Hne by (intros ->; destruct Hinv as (_ & _ & Hn);
                                specialize (Hn nx eq_refl); cbn in Hn; lia).
    rewrite Hp. cbn. rewrite lookup_insert_ne, Hf by done. cbn.
    intros Hinv'. split; [done|]. split; [by rewrite lookup_insert_eq|].
    split; [done|]. split; [by apply (slot_inv_idle _ Hinv')|].
    intros c [Hc Hs]. cbn in Hc, Hs.
    by pose proof (slot_inv_pending _ _ c Hinv' Hc Hs).
  - rewrite Hf. cbn.
    intros Hinv'. split; [done|]. split; [by rewrite lookup_insert_eq|].
    split; [done|]. split; [by apply (slot_inv_idle _ Hinv')|].
    intros c [Hc Hs]. cbn in Hc, Hs.
    by pose proof (slot_inv_pending _ _ c Hinv' Hc Hs).
Qed.

End TokenWaiter.

Section SessionWaiter.
Import SessionAuth.

(** The cases of a call that registers a waiter, after unfolding. *)
Ltac call_cases slot wv nx Hinv :=
  let Hf := fresh "Hf" in
  let Hp := fresh "Hp" in
  let Hne := fresh "Hne" in
  let p := fresh "p" in
  pose proof (slot_inv_fresh _ _ Hinv) as Hf; cbn in Hf;
  destruct slot as [p|]; cbn;
  [ pose proof (slot_inv_unsettled _ _ p Hinv eq_refl) as Hp; cbn in Hp;
    assert (p ≠ nx) as Hne
      by (intros ->; destruct Hinv as (_ & _ & Hn);
          specialize (Hn nx eq_refl); cbn in Hn; lia);
    rewrite ?Hp; cbn; destruct wv; cbn;
    [ by eapply inv_supersede
    | rewrite ?lookup_insert_ne, ?Hf by done; cbn;
      by eapply inv_supersede_failed ]
  | destruct wv; cbn;
    [ by eapply inv_register
    | rewrite ?Hf; cbn; by eapply inv_register_failed ] ].

Ltac clear_cases wv Hinv :=
  let Hf := fresh "Hf" in
  pose proof (slot_inv_fresh _ _ Hinv) as Hf; cbn in Hf;
  destruct wv; cbn; rewrite ?Hf; cbn; by eapply inv_settle_fresh.

Lemma session_call_inv cs (s : St Hook) :
  session_inv s → session_inv (exec (syncSessionToWebView cs) s).
Proof.
  destruct s as [[ss rd lg wr slot] [wv tm st nx tr]].
  unfold session_inv. cbn. intros Hinv. unfold_session. simpl_m.
  destruct cs as [x|]; cbn.
  - call_cases slot wv nx Hinv.
  - clear_cases wv Hinv.
Qed.

Lemma session_step_inv e (s : St Hook) :
  session_inv s → session_inv (exec (step e) s).
Proof.
  destruct s as [[ss rd lg wr slot] [wv tm st nx tr]].
  unfold session_inv. intros Hinv.
  destruct e as [| |cs|ev ns|m|r|cs|c|]; cbn [step].
  - simpl_m. kept.
  - simpl_m. kept.
  - unfold_session. simpl_m. kept.
  - unfold_session. simpl_m. destruct wr; cbn; [|kept].
    destruct ns as [x|]; cbn.
    + call_cases slot wv nx Hinv.
    + clear_cases wv Hinv.
  - unfold handleWebMessage. destruct m; try kept; unfold_session; simpl_m.
    + destruct ss as [x|]; cbn; [|kept]. call_cases slot wv nx Hinv.
    + destruct slot as [p|]; cbn; [|kept].
      pose proof (slot_inv_unsettled _ _ p Hinv eq_refl) as Hp. cbn in Hp.
      rewrite Hp. by eapply inv_release.
  - unfold_session. destruct r as [[x|]| |]; simpl_m; try kept.
    call_cases slot wv nx Hinv.
  - pose proof (session_call_inv cs _ Hinv) as Hc.
    unfold session_inv, exec in *. unfold mbind, M_bind, mret, M_ret.
    by destruct (syncSessionToWebView cs _) as [[] ?].
  - unfold_session. simpl_m.
    case_bool_decide as Hlive; cbn; [|kept].
    pose proof (slot_inv_live _ _ c Hinv Hlive) as Hs. cbn in Hs. subst slot.
    pose proof (slot_inv_unsettled _ _ c Hinv eq_refl) as Hp. cbn in Hp.
    rewrite Hp. by eapply inv_release.
  - unfold_session. simpl_m. destruct wv; cbn; kept.
Qed.

Lemma session_run_inv es (s : St Hook) :
  session_inv s → session_inv (exec (run es) s).
Proof.
  revert s. induction es as [|e es IH]; intros s Hinv; [done|].
  apply (IH (exec (step e) s)). by apply session_step_inv.
Qed.

Lemma session_reachable_inv es : session_inv (exec (run es) init).
Proof. apply session_run_inv, slot_inv_world0. Qed.







Lemma session_call_detached x (s : St Hook) :
  session_inv s → webViewRef (world s) = false →
  let r := syncSessionToWebView (Some x) s in
  r.1 = Ok (nextId (world s))
  ∧ result_of (nextId (world s)) r.2 = Some false
  ∧ sessionSetResolverRef (hook r.2) = None
  ∧ timers (world r.2) = ∅
  ∧ (∀ c, ¬ pending c r.2).
Proof.
  intros Hinv Hd. cbn zeta.
  pose proof (session_call_inv (Some x) s Hinv) as Hinv'.
  destruct s as [[ss rd lg wr slot] [wv tm st nx tr]].
  cbn in Hd. subst wv.
  pose proof (slot_inv_fresh _ _ Hinv) as Hf. cbn in Hf.
  unfold session_inv, exec in Hinv'. revert Hinv'.
  unfold_session. simpl_m. destruct slot as [p|]; cbn.
  - pose proof (slot_inv_unsettled _ _ p Hinv eq_refl) as Hp. cbn in Hp.
    assert (p ≠ nx) as Hne by (intros ->; destruct Hinv as (_ & _ & Hn);
                                specialize (Hn nx eq_refl); cbn in Hn; lia).
    rewrite Hp. cbn. rewrite lookup_insert_ne, Hf by done. cbn.
    intros Hinv'. split; [done|]. split; [by rewrite lookup_insert_eq|].
    split; [done|]. split; [by apply (slot_inv_idle _ Hinv')|].
    intros c [Hc Hs]. cbn in Hc, Hs.
    by pose proof (slot_inv_pending _ _ c Hinv' Hc Hs).
  - rewrite Hf. cbn.
    intros Hinv'. split; [done|]. split; [by rewrite lookup_insert_eq|].
    split; [done|]. split; [by apply (slot_inv_idle _ Hinv')|].
    intros c [Hc Hs]. cbn in Hc, Hs.
    by pose proof (slot_inv_pending _ _ c Hinv' Hc Hs).
Qed.

End SessionWaiter.





(* ===================================================================== *)
(** ** A send that fails inside the waiting call (C10) *)
(* ===================================================================== *)

(** C10: in every reachable state with no content surface attached, a call
    that sends and then waits for the confirmation resolves [false] before
    it returns; the slot is empty afterwards, no timer is left running, and
    no promise is left unsettled. *)
Theorem failed_send_resolves_at_once :
  (∀ es token timeout,
     let s := exec (TokenAuth.run es) TokenAuth.init in
     webViewRef (world s) = false →
     let r := TokenAuth.sendTokenAndWaitConfirmation token timeout s in
     r.1 = Ok (nextId (world s))
     ∧ result_of (nextId (world s)) r.2 = Some false
     ∧ TokenAuth.tokenReceivedResolverRef (hook r.2) = None
     ∧ timers (world r.2) = ∅
     ∧ (∀ c, ¬ pending c r.2))
  ∧ (∀ es x,
       let s := exec (SessionAuth.run es) SessionAuth.init in
       webViewRef (world s) = false →
       let r := SessionAuth.syncSessionToWebView (Some x) s in
       r.1 = Ok (nextId (world s))
       ∧ result_of (nextId (world s)) r.2 = Some false
       ∧ SessionAuth.sessionSetResolverRef (hook r.2) = None
       ∧ timers (world r.2) = ∅
       ∧ (∀ c, ¬ pending c r.2)).
Proof.
  split.
  - intros es token timeout s Hd.
    apply token_call_detached; [apply token_reachable_inv | done].
  - intros es x s Hd.
    apply session_call_detached; [apply session_reachable_inv | done].
Qed.

Lemma failed_send_resolves_at_once_witness :
  let s := exec (TokenAuth.run [TokenAuth.InitialSession
                                  (Some (mkSession "a" "r"));
                                TokenAuth.Mount;
                                TokenAuth.SendAndWait (Some "a") 3000;
                                TokenAuth.Unmount])
                TokenAuth.init in
  let r := TokenAuth.sendTokenAndWaitConfirmation (Some "a") 3000 s in
  r.1 = Ok 1%nat
  ∧ result_of 1 r.2 = Some false
  ∧ TokenAuth.tokenReceivedResolverRef (hook r.2) = None
  ∧ timers (world r.2) = ∅
  ∧ (∀ c, ¬ pending c r.2).
Proof.
  cbn zeta. destruct failed_send_resolves_at_once as (Ht & _).
  apply (Ht [TokenAuth.InitialSession (Some (mkSession "a" "r"));
             TokenAuth.Mount; TokenAuth.SendAndWait (Some "a") 3000;
             TokenAuth.Unmount] (Some "a") 3000).
  reflexivity.
Defined.

(* ===================================================================== *)
(** ** Back presses after a navigation event *)
(* ===================================================================== *)

Section BackAfterNavigation.
Context `{Lib.Config}.

Lemma double_tap_rule routeInfo now (s : St BackHandler.Hook) :
  Lib.IS_ANDROID = true →
  negb (isTabRoute routeInfo) && canGoBack routeInfo = false →
  isTabRoute routeInfo && negb (isHome routeInfo) = false →
  double_tap_outcome now (BackHandler.handleBackPress routeInfo now) s.
Proof.
  intros Hp H1 H2. split; intros Hd.
  - destruct (handleBackPress_exits routeInfo now s Hp H1 H2 Hd) as (_ & ? & ?).
    done.
  - destruct (handleBackPress_warns routeInfo now s Hp H1 H2 Hd) as (_ & ? & ?).
    done.
Qed.

Lemma navigation_home navState prev :
  path (Shell.handleNavigation navState prev) = "/" →
  isHome (Shell.handleNavigation navState prev) = true
  ∧ canGoBack (Shell.handleNavigation navState prev) = false.
Proof.
  cbn. intros ->. rewrite bool_decide_eq_true_2 by done.
  split; [done | apply andb_false_r].
Qed.

Lemma navigation_elsewhere navState prev :
  path (Shell.handleNavigation navState prev) ≠ "/" →
  isHome (Shell.handleNavigation navState prev) = false
  ∧ canGoBack (Shell.handleNavigation navState prev)
    = Shell.nav_canGoBack navState.
Proof.
  cbn. intros Hp. rewrite bool_decide_eq_false_2 by done. cbn.
  by rewrite andb_true_r.
Qed.

End BackAfterNavigation.

(** X1: what a back press does after a navigation event, in terms of the
    event itself.  On the platform: at the root path, which includes every
    URL that does not parse, the press is a double-tap exit and neither
    [goBack] nor a command reaches the content; on a tab root other than the
    root path NAVIGATE_HOME is sent whatever the WebView's history; on any
    other page the WebView goes back when it can, and the press is a
    double-tap exit when it cannot. *)
Theorem back_press_after_navigation `{Lib.Config} navState prev now
    (s : St BackHandler.Hook) :
  Lib.IS_ANDROID = true →
  let r := Shell.handleNavigation navState prev in
  let m := BackHandler.handleBackPress r now in
  (Lib.URL_parse (Shell.url navState) = None → path r = "/")
  ∧ (path r = "/" → double_tap_outcome now m s)
  ∧ (path r ≠ "/" → Lib.isTabRoute (path r) = true →
     emitted m s = (if webViewRef (world s) then [Inject NAVIGATE_HOME] else []))
  ∧ (path r ≠ "/" → Lib.isTabRoute (path r) = false →
     Shell.nav_canGoBack navState = true →
     emitted m s = (if webViewRef (world s) then [GoBack] else []))
  ∧ (path r ≠ "/" → Lib.isTabRoute (path r) = false →
     Shell.nav_canGoBack navState = false →
     double_tap_outcome now m s).
Proof.
  intros Hp r m. subst r m. split; [apply extractPath_malformed|].
  split; [|split; [|split]].
  - intros Hr. destruct (navigation_home navState prev Hr) as [Hh Hb].
    apply double_tap_rule; [done | |].
    + rewrite Hb. apply andb_false_r.
    + rewrite Hh. apply andb_false_r.
  - intros Hr Ht. destruct (navigation_elsewhere navState prev Hr) as [Hh Hb].
    by apply handleBackPress_goes_home.
  - intros Hr Ht Hc. destruct (navigation_elsewhere navState prev Hr) as [Hh Hb].
    apply handleBackPress_delegates; [done | done |]. by rewrite Hb.
  - intros Hr Ht Hc. destruct (navigation_elsewhere navState prev Hr) as [Hh Hb].
    apply double_tap_rule; [done | |].
    + rewrite Hb, Hc. apply andb_false_r.
    + change (isTabRoute (Shell.handleNavigation navState prev))
        with (Lib.isTabRoute (path (Shell.handleNavigation navState prev))).
      by rewrite Ht.
Qed.

Lemma back_press_after_navigation_witness :
  let s := mkSt 0 (mkWorld true ∅ ∅ 0 []) in
  let home := Shell.handleNavigation (H := Reference.config)
                (Shell.mkNavState "http://localhost:3000/" true)
                (mkRouteInfo "/ai" true false true) in
  let detail := Shell.handleNavigation (H := Reference.config)
                  (Shell.mkNavState "http://localhost:3000/ai/detail" true)
                  (mkRouteInfo "/ai" true false true) in
  double_tap_outcome (H := Reference.config) 1001000
    (BackHandler.handleBackPress (H := Reference.config) home 1001000) s
  ∧ emitted (BackHandler.handleBackPress (H := Reference.config) detail 1001000) s
    = [GoBack].
Proof.
  cbn zeta. split.
  - destruct (back_press_after_navigation (H := Reference.config)
                (Shell.mkNavState "http://localhost:3000/" true)
                (mkRouteInfo "/ai" true false true) 1001000
                (mkSt 0 (mkWorld true ∅ ∅ 0 [])) eq_refl) as (_ & Hhome & _).
    apply Hhome. reflexivity.
  - destruct (back_press_after_navigation (H := Reference.config)
                (Shell.mkNavState "http://localhost:3000/ai/detail" true)
                (mkRouteInfo "/ai" true false true) 1001000
                (mkSt 0 (mkWorld true ∅ ∅ 0 [])) eq_refl)
      as (_ & _ & _ & Hback & _).
    apply Hback; [vm_compute; discriminate | reflexivity | reflexivity].
Defined.

(** X2: two back presses on a page where the third rule applies.  When the
    first press is not itself an exit it records its time and shows the
    notice; a second press less than DOUBLE_TAP_EXIT_DELAY later exits the
    application, and a later one shows the notice again and records its own
    time. *)
Theorem double_press_exits `{Lib.Config} routeInfo now1 now2
    (s : St BackHandler.Hook) :
  Lib.IS_ANDROID = true →
  negb (isTabRoute routeInfo) && canGoBack routeInfo = false →
  isTabRoute routeInfo && negb (isHome routeInfo) = false →
  (Lib.DOUBLE_TAP_EXIT_DELAY ≤ now1 - hook s)%Z →
  let s1 := exec (BackHandler.handleBackPress routeInfo now1) s in
  let m2 := BackHandler.handleBackPress routeInfo now2 in
  (∃ notice, emitted (BackHandler.handleBackPress routeInfo now1) s
             = [ShowToast notice])
  ∧ (now2 - now1 < Lib.DOUBLE_TAP_EXIT_DELAY →
     emitted m2 s1 = [ExitApp] ∧ (m2 s1).1 = Ok true)
  ∧ ((Lib.DOUBLE_TAP_EXIT_DELAY ≤ now2 - now1)%Z →
     (∃ notice, emitted m2 s1 = [ShowToast notice])
     ∧ hook (exec m2 s1) = now2).
Proof.
  intros Hp H1 H2 Hd s1 m2. subst s1 m2.
  destruct (handleBackPress_warns routeInfo now1 s Hp H1 H2 Hd)
    as (_ & Hh & Hn).
  split; [done|]. split; intros Hd2.
  - destruct (handleBackPress_exits routeInfo now2
                (exec (BackHandler.handleBackPress routeInfo now1) s) Hp H1 H2)
      as (? & _ & ?); [by rewrite Hh | done].
  - destruct (handleBackPress_warns routeInfo now2
                (exec (BackHandler.handleBackPress routeInfo now1) s) Hp H1 H2)
      as (_ & ? & ?); [by rewrite Hh | done].
Qed.

Lemma double_press_exits_witness :
  let s := mkSt 0 (mkWorld true ∅ ∅ 0 []) in
  let home := mkRouteInfo "/" true true false in
  emitted (BackHandler.handleBackPress (H := Reference.config) home 1001500)
          (exec (BackHandler.handleBackPress (H := Reference.config) home 1000000) s)
  = [ExitApp].
Proof.
  cbn zeta.
  assert ((Lib.DOUBLE_TAP_EXIT_DELAY (Config := Reference.config)
           ≤ 1000000 - hook (mkSt 0 (mkWorld true ∅ ∅ 0 [])))%Z) as Hd
    by (cbn; lia).
  destruct (double_press_exits (H := Reference.config)
              (mkRouteInfo "/" true true false) 1000000 1001500
              (mkSt 0 (mkWorld true ∅ ∅ 0 [])) eq_refl eq_refl eq_refl Hd)
    as (_ & Hexit & _).
  apply Hexit. cbn. lia.
Defined.

(* ===================================================================== *)
(** ** LastSentToken and what the content was sent *)
(* ===================================================================== *)

Section DedupCache.
Import TokenAuth.

Lemma injections_app l k : injections (l ++ k) = injections l ++ injections k.
Proof. apply omap_app. Qed.

Lemma tokens_sent_app l k : tokens_sent (l ++ k) = tokens_sent l ++ tokens_sent k.
Proof. apply omap_app. Qed.

(** A handler that sends no token and leaves LastSentToken alone, or resets
    it, keeps the cache sound; so does one that records the token of its
    last SET_TOKEN command. *)
Lemma cache_sound_quiet (h h' : Hook) a a' tm tm' st st' nx nx' tr l :
  cache_sound (mkSt h (mkWorld a tm st nx tr)) →
  tokens_sent l = [] →
  lastSentTokenRef h' = lastSentTokenRef h ∨ lastSentTokenRef h' = None →
  cache_sound (mkSt h' (mkWorld a' tm' st' nx' (tr ++ l))).
Proof.
  intros Hs Hl Hc t Hh. unfold last_token_sent. cbn in *.
  rewrite tokens_sent_app, Hl, app_nil_r.
  destruct Hc as [Hc|Hc]; [|congruence]. apply Hs. cbn. congruence.
Qed.

Lemma cache_sound_same (h h' : Hook) a a' tm tm' st st' nx nx' tr :
  cache_sound (mkSt h (mkWorld a tm st nx tr)) →
  lastSentTokenRef h' = lastSentTokenRef h ∨ lastSentTokenRef h' = None →
  cache_sound (mkSt h' (mkWorld a' tm' st' nx' tr)).
Proof.
  intros Hs Hc. rewrite <- (app_nil_r tr). by eapply cache_sound_quiet.
Qed.

Lemma cache_sound_sent (h' : Hook) a' tm' st' nx' tr l :
  last (tokens_sent l) = Some (token_detail (lastSentTokenRef h')) →
  cache_sound (mkSt h' (mkWorld a' tm' st' nx' (tr ++ l))).
Proof.
  intros Hl t Hc. unfold last_token_sent. cbn in *.
  rewrite tokens_sent_app, last_app, Hl. congruence.
Qed.

Ltac cache_cases :=
  rewrite <- ?app_assoc; cbn [app];
  lazymatch goal with
  | Hs : cache_sound _
    |- cache_sound (mkSt ?h' (mkWorld _ _ _ _ (?tr ++ ?l))) =>
      first [ apply (cache_sound_quiet _ h' _ _ _ _ _ _ _ _ tr l Hs);
              [ reflexivity | cbn; first [left; reflexivity | right; reflexivity] ]
            | apply (cache_sound_sent h' _ _ _ _ tr l); reflexivity ]
  | Hs : cache_sound _ |- cache_sound (mkSt ?h' (mkWorld _ _ _ _ ?tr)) =>
      apply (cache_sound_same _ h' _ _ _ _ _ _ _ _ tr Hs);
      cbn; first [left; reflexivity | right; reflexivity]
  end.

Lemma cache_sound_step e (s : St Hook) :
  cache_sound s → cache_sound (exec (step e) s).
Proof.
  destruct s as [[ss rd lg ls wr slot] [wv tm st nx tr]]. intros Hs.
  destruct e as [| |cs|ev ns|m|r|token timeout|c|force| |]; cbn [step];
    unfold_token.
  - simpl_m. cache_cases.
  - simpl_m. cache_cases.
  - simpl_m. destruct (truthy _); cbn; [|cache_cases].
    destruct wv; cbn; [|cache_cases]. case_bool_decide; cbn; cache_cases.
  - simpl_m. destruct ev; cbn; destruct wv; cbn; cache_cases.
  - unfold handleWebMessage. destruct m; unfold_token; simpl_m;
      try cache_cases.
    + destruct (truthy _); cbn; [|cache_cases]. destruct wv; cbn; cache_cases.
    + destruct slot; cbn; cache_cases.
  - destruct r as [[x|]| |]; simpl_m; try cache_cases.
    destruct wv; cbn; cache_cases.
  - simpl_m. destruct slot; cbn; destruct wv; cbn; cache_cases.
  - simpl_m. case_bool_decide; cbn; cache_cases.
  - simpl_m. destruct wv; cbn; [|cache_cases].
    destruct (negb force && _); cbn; cache_cases.
  - simpl_m. cache_cases.
  - simpl_m. destruct wv; cbn; cache_cases.
Qed.

(** What the others add does not disturb the cache, SET_TOKEN being the
    hook's own command. *)
Lemma cache_sound_others l (s : St Hook) :
  cache_sound s → tokens_sent l = [] → cache_sound (others l s).
Proof.
  destruct s as [h [wv tm st nx tr]]. intros Hs Hl.
  apply (cache_sound_quiet h h wv wv tm tm st st nx nx tr l Hs Hl). by left.
Qed.

Lemma cache_sound_app_run es (s : St Hook) :
  Forall sends_no_token es → cache_sound s → cache_sound (app_run es s).
Proof.
  intros Hes. revert s.
  induction Hes as [|e es He _ IH]; intros s Hs; [done|].
  apply IH. destruct e as [e|l]; cbn.
  - by apply cache_sound_step.
  - by apply cache_sound_others.
Qed.

Lemma cache_sound_init : cache_sound init.
Proof. intros t Ht. discriminate. Qed.

End DedupCache.

(** X3: in every state the application can reach, by the handlers of the
    SET_TOKEN hook and by what the screen and the back handler inject into
    the same WebView in between, a token held in LastSentToken is the token
    of the last SET_TOKEN command.  So when an unforced send of a token is
    skipped although a content surface is attached, nothing is injected and
    the last SET_TOKEN command the content was sent carries that token. *)
Theorem dedup_cache_is_sound es :
  Forall sends_no_token es →
  let s := app_run es TokenAuth.init in
  cache_sound s
  ∧ (∀ t, webViewRef (world s) = true →
          (TokenAuth.sendTokenToWebView (Some t) false s).1 = Ok false →
          injections (emitted (TokenAuth.sendTokenToWebView (Some t) false) s)
          = []
          ∧ last_token_sent s = Some (TokenAuth.token_detail (Some t))).
Proof.
  intros Hes s.
  assert (cache_sound s) as Hs
    by (by apply cache_sound_app_run; [|apply cache_sound_init]).
  split; [done|]. intros t Ha Hr.
  assert (TokenAuth.lastSentTokenRef (hook s) = Some t) as Hl.
  { destruct s as [h [wv tm st nx tr]]. cbn in *. subst wv. revert Hr.
    unfold TokenAuth.sendTokenToWebView, TokenAuth.set_lastSentTokenRef.
    simpl_m. case_bool_decide; cbn; [done | discriminate]. }
  split; [|by apply Hs].
  destruct s as [h [wv tm st nx tr]]. cbn in *. subst wv.
  unfold TokenAuth.sendTokenToWebView, TokenAuth.set_lastSentTokenRef.
  simpl_m. rewrite Hl. rewrite bool_decide_eq_true_2 by done. cbn.
  by simpl_trace.
Qed.

Lemma dedup_cache_is_sound_witness :
  let s := app_run [HookEvent (TokenAuth.InitialSession
                                 (Some (mkSession "a" "r")));
                    HookEvent TokenAuth.Mount;
                    HookEvent (TokenAuth.AuthStateChange TOKEN_REFRESHED
                                 (Some (mkSession "b" "r")));
                    Others [Console LogError "[WebView] Native login failed:";
                            Inject (LOGIN_ERROR "Native login failed")];
                    Others [Inject NAVIGATE_HOME]]
                   TokenAuth.init in
  last (injections (trace (world s))) = Some NAVIGATE_HOME
  ∧ injections (emitted (TokenAuth.sendTokenToWebView (Some "b") false) s) = []
  ∧ last_token_sent s = Some (Some "b").
Proof.
  cbn zeta. split; [reflexivity|].
  assert (Forall sends_no_token
            [HookEvent (TokenAuth.InitialSession (Some (mkSession "a" "r")));
             HookEvent TokenAuth.Mount;
             HookEvent (TokenAuth.AuthStateChange TOKEN_REFRESHED
                          (Some (mkSession "b" "r")));
             Others [Console LogError "[WebView] Native login failed:";
                     Inject (LOGIN_ERROR "Native login failed")];
             Others [Inject NAVIGATE_HOME]]) as Hes
    by (repeat constructor).
  destruct (dedup_cache_is_sound _ Hes) as (_ & Hskip).
  apply (Hskip "b"); reflexivity.
Defined.

(* ===================================================================== *)
(** ** Readiness of the content, and sign-out followed by its notification *)
(* ===================================================================== *)

(** X4: when the content announces readiness, the SET_TOKEN hook sets
    WebReadyFlag and, given a cached session with a non-empty token and an
    attached surface, injects that token whatever LastSentToken holds, also
    the same token again.  Without a session, or with an empty token, it
    injects nothing: a signed-out shell sends no clear on readiness. *)
Theorem web_ready_redelivers (s : St TokenAuth.Hook) :
  let m := TokenAuth.handleWebMessage WEB_READY in
  TokenAuth.webReadyRef (hook (exec m s)) = true
  ∧ (∀ x, TokenAuth.session (hook s) = Some x → access_token x ≠ "" →
          webViewRef (world s) = true →
          injections (emitted m s) = [SET_TOKEN (Some (access_token x))]
          ∧ TokenAuth.lastSentTokenRef (hook (exec m s)) = Some (access_token x))
  ∧ (TokenAuth.session (hook s) = None →
     injections (emitted m s) = []
     ∧ TokenAuth.lastSentTokenRef (hook (exec m s))
       = TokenAuth.lastSentTokenRef (hook s))
  ∧ (∀ x, TokenAuth.session (hook s) = Some x → access_token x = "" →
          injections (emitted m s) = []).
Proof.
  destruct s as [[ss rd lg ls wr slot] [wv tm st nx tr]]. cbn zeta.
  unfold TokenAuth.handleWebMessage. unfold_token.
  split; [|split; [|split]].
  - simpl_m. destruct (truthy _); cbn; [|done]. destruct wv; cbn; done.
  - cbn. intros x -> Hx ->. simpl_m.
    unfold TokenAuth.token_detail. cbn.
    rewrite bool_decide_eq_false_2 by done. cbn. by simpl_trace.
  - cbn. intros ->. simpl_m. by simpl_trace.
  - cbn. intros x -> Hx. simpl_m.
    rewrite (bool_decide_eq_true_2 (access_token x = "")) by done.
    cbn. by simpl_trace.
Qed.

Lemma web_ready_redelivers_witness :
  let s := exec (TokenAuth.run [TokenAuth.Mount;
                                TokenAuth.InitialSession
                                  (Some (mkSession "a" "r"))])
                TokenAuth.init in
  TokenAuth.lastSentTokenRef (hook s) = Some "a"
  ∧ injections (emitted (TokenAuth.handleWebMessage WEB_READY) s)
    = [SET_TOKEN (Some "a")].
Proof.
  cbn zeta. split; [reflexivity|].
  destruct (web_ready_redelivers
              (exec (TokenAuth.run [TokenAuth.Mount;
                                    TokenAuth.InitialSession
                                      (Some (mkSession "a" "r"))])
                    TokenAuth.init)) as (_ & Hd & _).
  apply (Hd (mkSession "a" "r")); [reflexivity | discriminate | reflexivity].
Defined.

(** X5: a sign-out followed by the provider's SIGNED_OUT notification, with
    a content surface attached.  In the SET_TOKEN hook the notification,
    handled while [signOut] is suspended, injects the clear-token command and
    [signOut] injects it once more; the cached session, LastSentToken and
    WebReadyFlag all end cleared.  In the SET_SESSION hook [signOut] injects
    CLEAR_SESSION and the notification then injects nothing, WebReadyFlag
    being cleared by then. *)
Theorem signOut_then_notification :
  (∀ s : St TokenAuth.Hook,
     webViewRef (world s) = true →
     let m := TokenAuth.signOut (TokenAuth.onAuthStateChange SIGNED_OUT None) in
     injections (emitted m s) = [SET_TOKEN None; SET_TOKEN None]
     ∧ TokenAuth.session (hook (exec m s)) = None
     ∧ TokenAuth.lastSentTokenRef (hook (exec m s)) = None
     ∧ TokenAuth.webReadyRef (hook (exec m s)) = false)
  ∧ (∀ s : St SessionAuth.Hook,
       webViewRef (world s) = true →
       let s1 := exec SessionAuth.signOut s in
       let n := SessionAuth.onAuthStateChange SIGNED_OUT None in
       injections (emitted SessionAuth.signOut s) = [CLEAR_SESSION]
       ∧ injections (emitted n s1) = []
       ∧ SessionAuth.session (hook (exec n s1)) = None
       ∧ SessionAuth.webReadyRef (hook (exec n s1)) = false).
Proof.
  split.
  - intros [[ss rd lg ls wr slot] [wv tm st nx tr]]. cbn. intros ->.
    unfold_token. simpl_m. by simpl_trace.
  - intros [[ss rd lg wr slot] [wv tm st nx tr]]. cbn. intros ->.
    unfold_session. simpl_m. simpl_trace.
    rewrite length_app, <- drop_drop, drop_own_length. done.
Qed.

Lemma signOut_then_notification_witness :
  let s := exec (SessionAuth.run [SessionAuth.InitialSession
                                    (Some (mkSession "a" "r"));
                                  SessionAuth.Mount;
                                  SessionAuth.WebMessage WEB_READY])
                SessionAuth.init in
  injections (emitted SessionAuth.signOut s) = [CLEAR_SESSION]
  ∧ injections (emitted (SessionAuth.onAuthStateChange SIGNED_OUT None)
                        (exec SessionAuth.signOut s)) = [].
Proof.
  cbn zeta. destruct signOut_then_notification as (_ & Hs).
  destruct (Hs (exec (SessionAuth.run
                        [SessionAuth.InitialSession (Some (mkSession "a" "r"));
                         SessionAuth.Mount; SessionAuth.WebMessage WEB_READY])
                     SessionAuth.init) eq_refl) as (? & ? & _).
  done.
Defined.


(* ===================================================================== *)
(** ** [signInWithGoogle] and the callback route *)
(* ===================================================================== *)

Ltac unfold_signin :=
  unfold SignIn.signInWithGoogle, SignIn.try_finally, SignIn.on_success,
    SignIn.await_oauth, SignIn.await_browser, SignIn.setIsLoggingIn,
    DeepLink.handleCallback, DeepLink.await_answer in *.

Section SignInOutcome.
Context `{Lib.Config}.
Import SignIn.

Lemma on_success_is_the_modelled_branch {A} resultUrl a :
  @DeepLink.signInWithGoogle_success _ A resultUrl a
  = try_catch (@on_success _ A resultUrl a)
              (λ e, log_error "[useAuth] OAuth error:";; throw e).
Proof. reflexivity. Qed.

(** Whatever its three awaits return, [signInWithGoogle] ends with
    [isLoggingIn] false, the other cells and the runtime as they were, and a
    trace that has grown by lines that hold no injection and at most one
    provider call. *)
Lemma signIn_frame oauth browser a ss rd lg ls wr slot wv tm st nx tr :
  ∃ r l,
    signInWithGoogle oauth browser a
      (mkSt (TokenAuth.mkHook ss rd lg ls wr slot) (mkWorld wv tm st nx tr))
    = (r, mkSt (TokenAuth.mkHook ss rd false ls wr slot)
               (mkWorld wv tm st nx (tr ++ l)))
    ∧ injections l = []
    ∧ (length (provider_calls l) ≤ 1)%nat.
Proof.
  unfold_signin.
  destruct oauth as [[u|]|e|e]; simpl_m;
    try (eexists _, _; split; [simpl_trace; reflexivity|cbn; split; done || lia]).
  destruct (bool_decide (u = "")); cbn;
    [eexists _, _; split; [simpl_trace; reflexivity|cbn; split; done || lia]|].
  destruct browser as [ty bu|e]; cbn;
    [|eexists _, _; split; [simpl_trace; reflexivity|cbn; split; done || lia]].
  destruct (bool_decide (ty = "success") && truthy bu); cbn.
  - destruct (Lib.URL_parse _) as [url|]; cbn;
      [|eexists _, _; split; [simpl_trace; reflexivity|cbn; split; done || lia]].
    destruct (DeepLink.signInWithGoogle_credentials url); cbn;
      try destruct a; cbn;
      (eexists _, _; split; [simpl_trace; reflexivity|cbn; split; done || lia]).
  - destruct (bool_decide (ty = "cancel")); cbn;
      (eexists _, _; split; [simpl_trace; reflexivity|cbn; split; done || lia]).
Qed.

(** How [signInWithGoogle] ends depends on what its awaits return, not on
    the state it starts in. *)
Lemma signIn_result_stateless oauth browser a (s s' : St TokenAuth.Hook) :
  (signInWithGoogle oauth browser a s).1
  = (signInWithGoogle oauth browser a s').1.
Proof.
  unfold_signin.
  destruct oauth as [[u|]|e|e]; simpl_m; try done.
  destruct (bool_decide (u = "")); cbn; [done|].
  destruct browser as [ty bu|e]; cbn; [|done].
  destruct (bool_decide (ty = "success") && truthy bu); cbn.
  - destruct (Lib.URL_parse _) as [url|]; cbn; [|done].
    destruct (DeepLink.signInWithGoogle_credentials url); cbn;
      try destruct a; cbn; done.
  - destruct (bool_decide (ty = "cancel")); cbn; done.
Qed.

End SignInOutcome.

(** X6: [signInWithGoogle] leaves [isLoggingIn] false however it ends, by
    return or by exception, and whatever the provider and the browser
    answer; it touches no other cell of the hook, injects nothing into the
    content, and makes at most one call that establishes a session. *)
Theorem signIn_always_clears_flag `{Lib.Config} oauth browser a
    (s : St TokenAuth.Hook) :
  let m := SignIn.signInWithGoogle oauth browser a in
  TokenAuth.isLoggingIn (hook (exec m s)) = false
  ∧ TokenAuth.session (hook (exec m s)) = TokenAuth.session (hook s)
  ∧ TokenAuth.lastSentTokenRef (hook (exec m s))
    = TokenAuth.lastSentTokenRef (hook s)
  ∧ TokenAuth.webReadyRef (hook (exec m s)) = TokenAuth.webReadyRef (hook s)
  ∧ TokenAuth.tokenReceivedResolverRef (hook (exec m s))
    = TokenAuth.tokenReceivedResolverRef (hook s)
  ∧ injections (emitted m s) = []
  ∧ (length (provider_calls (emitted m s)) ≤ 1)%nat.
Proof.
  destruct s as [[ss rd lg ls wr slot] [wv tm st nx tr]]. cbn zeta.
  destruct (signIn_frame oauth browser a ss rd lg ls wr slot wv tm st nx tr)
    as (r & l & E & Hi & Hp).
  unfold emitted, exec. rewrite E. cbn. by rewrite drop_own_length.
Qed.

(** X7: how [signInWithGoogle] ends.  A provider error while the OAuth URL
    is made is rethrown, and a missing URL is an error.  A browser result
    other than a success with a URL, the user's cancel among them, is a
    normal return with no provider call and no error logged.  After a
    success, a callback URL without credentials is only logged: the function
    returns normally and calls the provider for nothing.  With credentials
    the one provider call is made and its error, if any, is rethrown. *)
Theorem signIn_outcome `{Lib.Config} oauth browser a (s : St TokenAuth.Hook) :
  let m := SignIn.signInWithGoogle oauth browser a in
  (∀ msg, oauth = SignIn.OAuthError msg → (m s).1 = Throw msg)
  ∧ (∀ u, oauth = SignIn.OAuthData u → truthy u = false →
          (m s).1 = Throw "No OAuth URL returned")
  ∧ (∀ u ty bu,
       oauth = SignIn.OAuthData u → truthy u = true →
       browser = SignIn.BrowserResult ty bu →
       bool_decide (ty = "success") && truthy bu = false →
       (m s).1 = Ok ()
       ∧ provider_calls (emitted m s) = []
       ∧ errors_logged (emitted m s) = [])
  ∧ (∀ u bu url,
       oauth = SignIn.OAuthData u → truthy u = true →
       browser = SignIn.BrowserResult "success" (Some bu) → bu ≠ "" →
       Lib.URL_parse bu = Some url →
       match DeepLink.signInWithGoogle_credentials url with
       | DeepLink.NoCredential =>
           (m s).1 = Ok ()
           ∧ provider_calls (emitted m s) = []
           ∧ errors_logged (emitted m s)
             = ["[useAuth] No tokens or code in callback URL"]
       | DeepLink.TokenPair access refresh =>
           (m s).1 = answer_outcome a
           ∧ provider_calls (emitted m s) = [CallSetSession access refresh]
       | DeepLink.ExchangeCode code =>
           (m s).1 = answer_outcome a
           ∧ provider_calls (emitted m s) = [CallExchangeCodeForSession code]
       end).
Proof.
  destruct s as [[ss rd lg ls wr slot] [wv tm st nx tr]]. cbn zeta.
  unfold_signin. split; [|split; [|split]].
  - intros msg ->. by simpl_m.
  - intros u -> Hu. simpl_m. by rewrite Hu.
  - intros u ty bu -> Hu -> Hb. simpl_m. rewrite Hu, Hb. cbn.
    destruct (bool_decide (ty = "cancel")); cbn; by simpl_trace.
  - intros u bu url -> Hu -> Hbu Hp. simpl_m. rewrite Hu. cbn.
    rewrite (bool_decide_eq_false_2 (bu = "")) by done.
    rewrite (bool_decide_eq_true_2 ("success" = "success")) by done.
    cbn. rewrite Hp.
    destruct (DeepLink.signInWithGoogle_credentials url); cbn.
    + destruct a; cbn; by simpl_trace.
    + destruct a; cbn; by simpl_trace.
    + by simpl_trace.
Qed.

Lemma signIn_outcome_witness :
  let m := SignIn.signInWithGoogle (H := Reference.config)
             (SignIn.OAuthData (Some "https://accounts.example/o/oauth2"))
             (SignIn.BrowserResult "cancel" None) DeepLink.AnswerOk in
  (m TokenAuth.init).1 = Ok ()
  ∧ provider_calls (emitted m TokenAuth.init) = [].
Proof.
  cbn zeta.
  destruct (signIn_outcome (H := Reference.config)
              (SignIn.OAuthData (Some "https://accounts.example/o/oauth2"))
              (SignIn.BrowserResult "cancel" None) DeepLink.AnswerOk
              TokenAuth.init) as (_ & _ & Hc & _).
  destruct (Hc (Some "https://accounts.example/o/oauth2") "cancel" None
               eq_refl eq_refl eq_refl eq_refl) as (? & ? & _).
  done.
Defined.

(** X8: [handleCallback] of the callback route never raises, whatever the
    URL and whatever the provider answers, a rejected promise included; it
    injects nothing and calls the provider at most once.  With no initial
    URL, or an empty one, it calls nothing, does not parse, and writes the
    one error line "No URL found"; with a non-empty URL that does not parse
    it calls nothing and writes the error line of its [catch]; and a rejected
    provider call ends in that same line. *)
Theorem handleCallback_never_raises `{Lib.Config} initialURL a (s : St unit) :
  let m := DeepLink.handleCallback initialURL a in
  (m s).1 = Ok ()
  ∧ injections (emitted m s) = []
  ∧ (length (provider_calls (emitted m s)) ≤ 1)%nat
  ∧ (initialURL = None ∨ initialURL = Some "" →
     provider_calls (emitted m s) = []
     ∧ errors_logged (emitted m s) = ["[AuthCallback] No URL found"])
  ∧ (∀ url, initialURL = Some url → url ≠ "" → Lib.URL_parse url = None →
            provider_calls (emitted m s) = []
            ∧ errors_logged (emitted m s) = ["[AuthCallback] Error:"])
  ∧ (∀ url u e, initialURL = Some url → url ≠ "" →
                Lib.URL_parse url = Some u →
                DeepLink.handleCallback_credentials u ≠ DeepLink.NoCredential →
                a = DeepLink.AnswerRejected e →
                errors_logged (emitted m s) = ["[AuthCallback] Error:"]).
Proof.
  destruct s as [[] [wv tm st nx tr]]. cbn zeta. unfold_signin.
  assert (∀ url, url ≠ "" → truthy (Some url) = true) as Ht
    by (intros url Hu; cbn; by rewrite bool_decide_eq_false_2).
  split_and!.
  - simpl_m. destruct (truthy initialURL); cbn; [|done].
    destruct (Lib.URL_parse _) as [u|]; cbn; [|done].
    destruct (DeepLink.handleCallback_credentials u); cbn;
      try destruct a; cbn; done.
  - simpl_m. destruct (truthy initialURL); cbn; [|by simpl_trace].
    destruct (Lib.URL_parse _) as [u|]; cbn; [|by simpl_trace].
    destruct (DeepLink.handleCallback_credentials u); cbn;
      try destruct a; cbn; by simpl_trace.
  - simpl_m. destruct (truthy initialURL); cbn; [|simpl_trace; cbn; lia].
    destruct (Lib.URL_parse _) as [u|]; cbn; [|simpl_trace; cbn; lia].
    destruct (DeepLink.handleCallback_credentials u); cbn;
      try destruct a; cbn; simpl_trace; cbn; lia.
  - intros [-> | ->]; simpl_m;
      rewrite ?(bool_decide_eq_true_2 ("" = "")) by done; cbn; by simpl_trace.
  - intros url -> Hu Hp. simpl_m. rewrite (bool_decide_eq_false_2 _ Hu). cbn.
    rewrite Hp. cbn. by simpl_trace.
  - intros url u e -> Hu Hp Hc ->. simpl_m.
    rewrite (bool_decide_eq_false_2 _ Hu). cbn. rewrite Hp. cbn.
    destruct (DeepLink.handleCallback_credentials u); cbn; try done;
      by simpl_trace.
Qed.

Lemma handleCallback_never_raises_witness :
  let m := DeepLink.handleCallback (H := Reference.config)
             (Some "not a url") DeepLink.AnswerOk in
  let m0 := DeepLink.handleCallback (H := Reference.config)
              (Some "") DeepLink.AnswerOk in
  (provider_calls (emitted m (mkSt () world0)) = []
   ∧ errors_logged (emitted m (mkSt () world0)) = ["[AuthCallback] Error:"])
  ∧ (provider_calls (emitted m0 (mkSt () world0)) = []
     ∧ errors_logged (emitted m0 (mkSt () world0))
       = ["[AuthCallback] No URL found"]).
Proof.
  cbn zeta. split.
  - destruct (handleCallback_never_raises (H := Reference.config)
                (Some "not a url") DeepLink.AnswerOk (mkSt () world0))
      as (_ & _ & _ & _ & Hbad & _).
    apply (Hbad "not a url"); [reflexivity | discriminate | reflexivity].
  - destruct (handleCallback_never_raises (H := Reference.config)
                (Some "") DeepLink.AnswerOk (mkSt () world0))
      as (_ & _ & _ & Hnone & _).
    apply Hnone. by right.
Defined.


(* ===================================================================== *)
(** ** The screen: where the session sends the WebView *)
(* ===================================================================== *)

Ltac unfold_screen :=
  unfold Screen.handleMessage, Screen.handleLogout, Screen.handleNativeLogin,
    Screen.initEffect, Screen.sessionEffect, Screen.handleLoadRequest,
    Screen.handleNavigation, Screen.detach, Screen.zoom, Screen.setUrl,
    Screen.setRouteInfo, Screen.setIsUrlInitialized, Screen.login_route in *.

(** X9: the effect that follows the session, under the three conditions on
    the constants that the code relies on: the login URL contains "/login",
    the home URL does not, and the default route is not the login route.
    Before the session is known, or before the first URL is chosen, it does
    nothing.  After it, a signed-out screen is on a URL that contains
    "/login", and a signed-in screen is neither on such a URL nor on the
    login route.  Running it again changes no state cell, so the renders it
    causes come to an end. *)
Theorem sessionEffect_settles {A} `{Screen.Constants} (U : Screen.UseAuth A)
    (s : St (Screen.Hook A)) :
  Utils.includes Screen.getLoginUrl "/login" = true →
  Utils.includes Screen.getInitialUrl "/login" = false →
  path Screen.DEFAULT_ROUTE_INFO ≠ "/login" →
  let s' := exec (Screen.sessionEffect U) s in
  Screen.auth (hook s') = Screen.auth (hook s)
  ∧ (Screen.isReady U (Screen.auth (hook s)) = false
     ∨ Screen.isUrlInitialized (hook s) = false → s' = s)
  ∧ (Screen.isReady U (Screen.auth (hook s)) = true →
     Screen.isUrlInitialized (hook s) = true →
     (Screen.session U (Screen.auth (hook s)) = None →
      Utils.includes (Screen.url (hook s')) "/login" = true)
     ∧ (∀ x, Screen.session U (Screen.auth (hook s)) = Some x →
             Utils.includes (Screen.url (hook s')) "/login" = false
             ∧ path (Screen.routeInfo (hook s')) ≠ "/login"))
  ∧ hook (exec (Screen.sessionEffect U) s') = hook s'.
Proof.
  destruct s as [[au u ri ini cc] [wv tm st nx tr]].
  intros Hlogin Hhome Hdef. cbn zeta. unfold_screen. simpl_m.
  destruct (Screen.isReady U au) eqn:Hr; cbn; rewrite ?Hr; cbn;
    [|split_and!; try done; intros; done].
  destruct ini; cbn; rewrite ?Hr; cbn; [|split_and!; try done; intros; done].
  destruct (Screen.session U au) as [x|] eqn:Hs; cbn.
  - destruct (bool_decide (path ri = "/login") || Utils.includes u "/login")
      eqn:Hc; cbn; rewrite ?Hr, ?Hs; cbn.
    + rewrite bool_decide_eq_false_2, Hhome by done. cbn.
      split_and!; try done; intros [?|?]; discriminate.
    + rewrite Hc. cbn. apply orb_false_iff in Hc as [Hp Hu].
      apply bool_decide_eq_false in Hp.
      split_and!; try done; intros [?|?]; discriminate.
  - destruct (Utils.includes u "/login") eqn:Hu; cbn; rewrite ?Hr, ?Hs; cbn.
    + rewrite Hu. cbn. split_and!; try done; intros [?|?]; discriminate.
    + rewrite Hlogin. cbn. split_and!; try done; intros [?|?]; discriminate.
Qed.

Lemma sessionEffect_settles_witness :
  let s := exec (Screen.initEffect (H := Sample.screen) Sample.useAuth)
             (Sample.mounted
                (exec (TokenAuth.run [TokenAuth.InitialSession
                                        (Some (mkSession "a" "r"))])
                      TokenAuth.init)) in
  let out := exec (Screen.zoom (TokenAuth.onAuthStateChange SIGNED_OUT None)) s in
  Screen.url (hook s) = "http://localhost:3000"
  ∧ Screen.url (hook (exec (Screen.sessionEffect (H := Sample.screen)
                              Sample.useAuth) out))
    = "http://localhost:3000/login".
Proof.
  cbn zeta. split; [reflexivity|].
  pose proof (sessionEffect_settles (H := Sample.screen) Sample.useAuth
                (exec (Screen.zoom (TokenAuth.onAuthStateChange SIGNED_OUT None))
                   (exec (Screen.initEffect (H := Sample.screen) Sample.useAuth)
                      (Sample.mounted
                         (exec (TokenAuth.run
                                  [TokenAuth.InitialSession
                                     (Some (mkSession "a" "r"))])
                               TokenAuth.init))))
                eq_refl eq_refl) as Hs.
  cbn zeta in Hs. destruct Hs as (_ & _ & _ & Hstable); [discriminate|].
  rewrite <- Hstable. reflexivity.
Defined.

Section Logout.
Context {A : Type}.

Lemma clearAll_spec clears names (s : St (Screen.Hook A)) :
  let s' := exec (Screen.clearAll clears names) s in
  Screen.clearedCookies (hook s')
  = Screen.clearedCookies (hook s) ++ cleared_prefix clears names
  ∧ Screen.auth (hook s') = Screen.auth (hook s)
  ∧ Screen.url (hook s') = Screen.url (hook s)
  ∧ Screen.routeInfo (hook s') = Screen.routeInfo (hook s)
  ∧ Screen.isUrlInitialized (hook s') = Screen.isUrlInitialized (hook s)
  ∧ world s' = world s.
Proof.
  revert s. induction names as [|n names IH]; intros [[au u ri ini cc] w].
  - cbn. by rewrite app_nil_r.
  - cbn zeta. cbn [Screen.clearAll cleared_prefix]. unfold Screen.clearByName.
    destruct (clears n); simpl_m.
    + specialize (IH (mkSt (Screen.mkHook au u ri ini (cc ++ [n])) w)).
      cbn zeta in IH. unfold exec in IH. cbn in IH.
      destruct IH as (-> & ? & ? & ? & ? & ?).
      rewrite <- app_assoc. done.
    + by rewrite app_nil_r.
Qed.

Lemma cookie_cleanup_spec cookies (s : St (Screen.Hook A)) :
  let m := try_catch
             (match cookies with
              | Screen.CookiesRejected e => throw e
              | Screen.CookiesFound names clears => Screen.clearAll clears names
              end)
             (λ _, log "[WebView] Cookie clear skipped (Android)") in
  (m s).1 = Ok ()
  ∧ Screen.clearedCookies (hook (exec m s))
    = Screen.clearedCookies (hook s)
      ++ match cookies with
         | Screen.CookiesRejected _ => []
         | Screen.CookiesFound names clears => cleared_prefix clears names
         end
  ∧ Screen.auth (hook (exec m s)) = Screen.auth (hook s)
  ∧ Screen.url (hook (exec m s)) = Screen.url (hook s)
  ∧ Screen.routeInfo (hook (exec m s)) = Screen.routeInfo (hook s)
  ∧ Screen.isUrlInitialized (hook (exec m s)) = Screen.isUrlInitialized (hook s).
Proof.
  cbn zeta. destruct cookies as [e|names clears].
  - destruct s as [[au u ri ini cc] w]. simpl_m. by rewrite app_nil_r.
  - pose proof (clearAll_spec clears names s) as Hc. cbn zeta in Hc.
    unfold exec, try_catch in *.
    destruct (Screen.clearAll clears names s) as [[[]|e] s'] eqn:E; cbn in *.
    + destruct Hc as (? & ? & ? & ? & ? & ?). done.
    + destruct Hc as (? & ? & ? & ? & ? & ?). destruct s' as [h' w'].
      simpl_m. done.
Qed.

End Logout.

(** X10: [handleLogout].  When the hook's [signOut] returns, the screen ends
    on the login URL with the login route whatever the cookie manager does:
    a rejected [get], or a [clearByName] that rejects part of the way, only
    stops the cleanup, the cookies before it staying removed.  When [signOut]
    raises, [handleLogout] raises with it and neither cleans cookies nor
    navigates. *)
Theorem handleLogout_reaches_login {A} `{Screen.Constants}
    (U : Screen.UseAuth A) cookies (s : St (Screen.Hook A)) :
  let m := Screen.handleLogout U cookies in
  let r := Screen.zoom (Screen.signOut U)
             (exec (log "[WebView] Logout received, clearing session...") s) in
  (r.1 = Ok () →
   (m s).1 = Ok ()
   ∧ Screen.url (hook (exec m s)) = Screen.getLoginUrl
   ∧ Screen.routeInfo (hook (exec m s)) = Screen.login_route
   ∧ Screen.auth (hook (exec m s)) = Screen.auth (hook r.2)
   ∧ Screen.clearedCookies (hook (exec m s))
     = Screen.clearedCookies (hook s)
       ++ match cookies with
          | Screen.CookiesRejected _ => []
          | Screen.CookiesFound names clears => cleared_prefix clears names
          end)
  ∧ (∀ e, r.1 = Throw e → m s = (Throw e, r.2)).
Proof.
  cbn zeta. unfold Screen.handleLogout.
  pose proof (cookie_cleanup_spec (A := A) cookies) as Hc. cbn zeta in Hc.
  set (cleanup := try_catch _ _) in *. clearbody cleanup.
  assert (∀ t, Screen.clearedCookies (hook (Screen.zoom (Screen.signOut U) t).2)
               = Screen.clearedCookies (hook t)) as Hz.
  { intros [[au u ri ini cc] w]. unfold Screen.zoom. cbn.
    by destruct (Screen.signOut U _). }
  destruct s as [[au u ri ini cc] w]. unfold exec in *. unfold_m. cbn.
  match goal with
  | |- context [Screen.zoom (Screen.signOut U) ?t] =>
      specialize (Hz t);
      destruct (Screen.zoom (Screen.signOut U) t) as [[[]|e] s1]
  end; cbn in *.
  - specialize (Hc s1). destruct (cleanup s1) as [[[]|e] s2]; cbn in *.
    + destruct Hc as (_ & Hcl & Hau & _).
      split; [intros _|intros; done]. by rewrite Hcl, Hz.
    + by destruct Hc as [? _].
  - split; [done|]. by intros e' [= ->].
Qed.

Lemma handleLogout_reaches_login_witness :
  let s := Sample.mounted
             (exec (TokenAuth.run [TokenAuth.InitialSession
                                     (Some (mkSession "a" "r"));
                                   TokenAuth.Mount])
                   TokenAuth.init) in
  let m := Screen.handleLogout (H := Sample.screen) Sample.useAuth
             (Screen.CookiesFound ["sb-access"; "sb-refresh"; "theme"]
                (λ n, bool_decide (n ≠ "sb-refresh"))) in
  Screen.url (hook (exec m s)) = "http://localhost:3000/login"
  ∧ Screen.clearedCookies (hook (exec m s)) = ["sb-access"].
Proof.
  cbn zeta.
  destruct (handleLogout_reaches_login (H := Sample.screen) Sample.useAuth
              (Screen.CookiesFound ["sb-access"; "sb-refresh"; "theme"]
                 (λ n, bool_decide (n ≠ "sb-refresh")))
              (Sample.mounted
                 (exec (TokenAuth.run [TokenAuth.InitialSession
                                         (Some (mkSession "a" "r"));
                                       TokenAuth.Mount])
                       TokenAuth.init))) as (Hok & _).
  destruct Hok as (_ & Hu & _ & _ & Hc); [reflexivity|].
  split; [exact Hu | exact Hc].
Defined.

(** X11: [handleNativeLogin] over the SET_TOKEN hook never raises and
    changes neither the URL nor the route.  It injects LOGIN_ERROR, when a
    content surface is attached, exactly when [signInWithGoogle] raises;
    when the sign-in returns, as it does when the user cancels, the content
    is sent nothing. *)
Theorem native_login_reports_failure `{Lib.Config} during oauth browser a
    (s : St (Screen.Hook TokenAuth.Hook)) :
  let m := Screen.handleNativeLogin (token_useAuth during oauth browser a) in
  let r := (SignIn.signInWithGoogle oauth browser a
              (mkSt (Screen.auth (hook s)) (world s))).1 in
  (m s).1 = Ok ()
  ∧ Screen.url (hook (exec m s)) = Screen.url (hook s)
  ∧ Screen.routeInfo (hook (exec m s)) = Screen.routeInfo (hook s)
  ∧ injections (emitted m s)
    = match r with
      | Ok _ => []
      | Throw _ =>
          if webViewRef (world s) then [LOGIN_ERROR "Native login failed"]
          else []
      end.
Proof.
  destruct s as [[[ss rd lg ls wr slot] u ri ini cc] [wv tm st nx tr]].
  cbn zeta.
  destruct (signIn_frame oauth browser a ss rd lg ls wr slot wv tm st nx
              (tr ++ [Console LogInfo
                        "[WebView] Native login requested from web"]))
    as (r & l & E & Hi & _).
  rewrite (signIn_result_stateless oauth browser a _
             (mkSt (TokenAuth.mkHook ss rd lg ls wr slot)
                   (mkWorld wv tm st nx
                      (tr ++ [Console LogInfo
                                "[WebView] Native login requested from web"])))).
  unfold Screen.handleNativeLogin, Screen.zoom, token_useAuth.
  cbn [Screen.signInWithGoogle]. unfold_m.
  cbn -[SignIn.signInWithGoogle] in *. rewrite E. cbn.
  destruct r as [[]|e]; cbn.
  - simpl_trace. split_and!; try done; exact Hi.
  - destruct wv; cbn; split_and!; try done; simpl_trace; cbn;
      match goal with
      | |- omap _ (l ++ ?k) = ?rhs => change (injections (l ++ k) = rhs)
      end;
      by rewrite injections_app, Hi.
Qed.

Lemma native_login_reports_failure_witness :
  let s := Sample.mounted
             (exec (TokenAuth.run [TokenAuth.InitialSession None;
                                   TokenAuth.Mount])
                   TokenAuth.init) in
  injections (emitted (Screen.handleNativeLogin Sample.useAuth) s) = []
  ∧ injections (emitted (Screen.handleNativeLogin Sample.useAuth_failing) s)
    = [LOGIN_ERROR "Native login failed"].
Proof.
  cbn zeta. split.
  - apply (native_login_reports_failure (H := Reference.config)).
  - apply (native_login_reports_failure (H := Reference.config)).
Defined.

(** X12: [handleMessage] of the screen over the SET_TOKEN hook never raises.
    A payload that does not parse, a message of an unknown type and the
    messages of the SET_SESSION protocol (SESSION_SET,
    REQUEST_SESSION_REFRESH, SESSION_EXPIRED) leave the whole state as it
    was.  A ROUTE_INFO message replaces the route with its payload as it
    comes, and touches nothing else. *)
Theorem handleMessage_ignores_foreign `{Lib.Config} `{Screen.Constants}
    during oauth browser a data cookies
    (s : St (Screen.Hook TokenAuth.Hook)) :
  let m := Screen.handleMessage (token_useAuth during oauth browser a)
             data cookies in
  (m s).1 = Ok ()
  ∧ (data = Screen.ParseError ∨ data = Screen.UnknownType
     ∨ (∃ b, data = Screen.Message (SESSION_SET b))
     ∨ data = Screen.Message REQUEST_SESSION_REFRESH
     ∨ data = Screen.Message SESSION_EXPIRED →
     exec m s = s)
  ∧ (∀ payload, data = Screen.Message (ROUTE_INFO payload) →
       Screen.routeInfo (hook (exec m s)) = payload
       ∧ Screen.auth (hook (exec m s)) = Screen.auth (hook s)
       ∧ Screen.url (hook (exec m s)) = Screen.url (hook s)
       ∧ world (exec m s) = world s).
Proof.
  cbn zeta. split; [|split].
  - destruct data as [| |msg]; try done.
    destruct msg; try done; unfold Screen.handleMessage, Screen.zoom;
      cbn [Screen.handleWebMessage token_useAuth];
      match goal with
      | |- context [TokenAuth.handleWebMessage ?m ?t] =>
          pose proof (token_step_returns (TokenAuth.WebMessage m) t) as Hr;
          cbn [TokenAuth.step] in Hr;
          by destruct (TokenAuth.handleWebMessage m t) as [[] ?]
      end.
  - intros [-> | [-> | [[b ->] | [-> | ->]]]]; reflexivity.
  - intros payload ->. destruct s as [[au u ri ini cc] w]. done.
Qed.


(* ===================================================================== *)
(** ** The emulator rewrite of localhost URLs *)
(* ===================================================================== *)

Section Strings.
Import Utils.

Lemma strip_prefix_Some p s r : strip_prefix p s = Some r ↔ s = p +:+ r.
Proof.
  revert s. induction p as [|a p IH]; intros s; cbn.
  - split; [by intros [= ->] | by intros ->].
  - destruct s as [|b s]; [split; discriminate|].
    destruct (Ascii.eqb_spec a b) as [->|Hne].
    + rewrite IH. split; [by intros -> | by intros [= ->]].
    + split; [discriminate | by intros [= -> _]].
Qed.

Lemma append_inj_l pre a b : pre +:+ a = pre +:+ b → a = b.
Proof. induction pre as [|c pre IH]; cbn; [done|]. intros [= ?]. auto. Qed.

Lemma replace_absent s needle rep :
  includes s needle = false → replace s needle rep = s.
Proof.
  induction s as [|a s IH]; cbn.
  - destruct (strip_prefix needle "") eqn:E; [discriminate | done].
  - destruct (strip_prefix needle (String a s)) eqn:E; [discriminate|].
    intros Hi. by rewrite IH.
Qed.

Lemma replace_first s needle rep :
  includes s needle = true →
  ∃ pre post,
    s = pre +:+ needle +:+ post
    ∧ replace s needle rep = pre +:+ rep +:+ post
    ∧ ∀ pre' post', s = pre' +:+ needle +:+ post' →
                    (String.length pre ≤ String.length pre')%nat.
Proof.
  induction s as [|a s IH]; cbn.
  - destruct (strip_prefix needle "") as [rest|] eqn:E; [|discriminate].
    intros _. apply strip_prefix_Some in E. exists "", rest.
    split; [done|]. split; [done|]. intros; cbn; lia.
  - destruct (strip_prefix needle (String a s)) as [rest|] eqn:E.
    + intros _. apply strip_prefix_Some in E. exists "", rest.
      split; [done|]. split; [done|]. intros; cbn; lia.
    + intros Hi. destruct (IH Hi) as (pre & post & -> & -> & Hmin).
      exists (String a pre), post. split; [done|]. split; [done|].
      intros [|b pre'] post' Heq.
      * change (String a (pre +:+ needle +:+ post) = needle +:+ post') in Heq.
        apply strip_prefix_Some in Heq. congruence.
      * change (String a (pre +:+ needle +:+ post)
                = String b (pre' +:+ needle +:+ post')) in Heq.
        injection Heq as -> Heq. cbn.
        specialize (Hmin pre' post' Heq). lia.
Qed.

Lemma toEmulatorUrl_fixed `{Constants} (url : string) :
  hasLocalhost url = false ↔ toEmulatorUrl url = url.
Proof.
  unfold hasLocalhost, toEmulatorUrl.
  destruct IS_DEV_ANDROID; cbn [andb]; [|done].
  split; [apply replace_absent|].
  destruct (includes url "localhost") eqn:Hi; [|done].
  destruct (replace_first url "localhost" "10.0.2.2" Hi)
    as (pre & post & Hu & -> & _).
  rewrite Hu. intros Heq%append_inj_l. discriminate.
Qed.

End Strings.

(** X13: [hasLocalhost] is exactly the test for [toEmulatorUrl] to change
    its argument.  When it holds, the URL is [pre ++ "localhost" ++ post]
    with no earlier occurrence of "localhost", and [toEmulatorUrl] gives
    [pre ++ "10.0.2.2" ++ post]: the first occurrence is replaced and later
    ones stay.  Outside an Android development build nothing is ever
    rewritten. *)
Theorem toEmulatorUrl_rewrites_first `{Utils.Constants} (url : string) :
  (Utils.hasLocalhost url = false ↔ Utils.toEmulatorUrl url = url)
  ∧ (Utils.hasLocalhost url = true →
     ∃ pre post,
       url = pre +:+ "localhost" +:+ post
       ∧ Utils.toEmulatorUrl url = pre +:+ "10.0.2.2" +:+ post
       ∧ ∀ pre' post', url = pre' +:+ "localhost" +:+ post' →
                       (String.length pre ≤ String.length pre')%nat)
  ∧ (Utils.IS_DEV_ANDROID = false →
     Utils.hasLocalhost url = false ∧ Utils.toEmulatorUrl url = url).
Proof.
  split; [apply toEmulatorUrl_fixed|].
  unfold Utils.hasLocalhost, Utils.toEmulatorUrl.
  destruct Utils.IS_DEV_ANDROID; cbn [andb].
  - split; [apply replace_first | discriminate].
  - split; [discriminate | done].
Qed.

Lemma toEmulatorUrl_rewrites_first_witness :
  Utils.toEmulatorUrl (H := Sample.dev_android)
    "http://localhost:3000/login?next=http://localhost:3000/ai"
  = "http://10.0.2.2:3000/login?next=http://localhost:3000/ai"
  ∧ ∃ pre post,
      "http://localhost:3000/ai" = pre +:+ "localhost" +:+ post
      ∧ Utils.toEmulatorUrl (H := Sample.dev_android)
          "http://localhost:3000/ai" = pre +:+ "10.0.2.2" +:+ post.
Proof.
  split; [reflexivity|].
  destruct (toEmulatorUrl_rewrites_first (H := Sample.dev_android)
              "http://localhost:3000/ai") as (_ & Hr & _).
  destruct (Hr eq_refl) as (pre & post & ? & ? & _).
  by exists pre, post.
Defined.

(** X14: [handleLoadRequest] lets a request load only when its URL does not
    start with "intent://" and [hasLocalhost] is false for it, and then
    changes nothing.  An intent URL is refused with no change.  Any other
    URL for which [hasLocalhost] holds is refused and the screen's URL
    becomes its rewrite, which differs from the request. *)
Theorem handleLoadRequest_gate {A} `{Utils.Constants} requestUrl
    (s : St (Screen.Hook A)) :
  let m := Screen.handleLoadRequest requestUrl in
  ((m s).1 = Ok true ↔
   Utils.startsWith requestUrl "intent://" = false
   ∧ Utils.hasLocalhost requestUrl = false)
  ∧ ((m s).1 = Ok true ∨ (m s).1 = Ok false)
  ∧ ((m s).1 = Ok true → exec m s = s)
  ∧ (Utils.startsWith requestUrl "intent://" = true → m s = (Ok false, s))
  ∧ (Utils.startsWith requestUrl "intent://" = false →
     Utils.hasLocalhost requestUrl = true →
     (m s).1 = Ok false
     ∧ Screen.url (hook (exec m s)) = Utils.toEmulatorUrl requestUrl
     ∧ Screen.url (hook (exec m s)) ≠ requestUrl
     ∧ Screen.routeInfo (hook (exec m s)) = Screen.routeInfo (hook s)
     ∧ world (exec m s) = world s).
Proof.
  destruct s as [[au u ri ini cc] w]. cbn zeta. unfold_screen.
  destruct (Utils.startsWith requestUrl "intent://") eqn:Hi;
    destruct (Utils.hasLocalhost requestUrl) eqn:Hl; simpl_m;
    split_and!; try done; try (by left); try (by right);
    try (split; [discriminate | intros [? ?]; discriminate]).
  intros _ _. split_and!; try done.
  intros Heq%toEmulatorUrl_fixed. congruence.
Qed.

Lemma handleLoadRequest_gate_witness :
  let s := Sample.mounted TokenAuth.init in
  let m := Screen.handleLoadRequest (H0 := Sample.dev_android)
             "http://localhost:3000/ai" in
  (m s).1 = Ok false
  ∧ Screen.url (hook (exec m s)) = "http://10.0.2.2:3000/ai".
Proof.
  cbn zeta.
  destruct (handleLoadRequest_gate (H := Sample.dev_android)
              "http://localhost:3000/ai" (Sample.mounted TokenAuth.init))
    as (_ & _ & _ & _ & Hl).
  destruct (Hl eq_refl eq_refl) as (? & Hu & _).
  split; [done|]. rewrite Hu. reflexivity.
Defined.


(* ===================================================================== *)
(** ** The storage adapter of the Supabase client *)
(* ===================================================================== *)

(** X15: no operation of the storage adapter raises, whatever SecureStore
    does.  [getItem] gives the stored value when SecureStore answers and
    [null] when it rejects; each operation writes one error line when
    SecureStore rejects and none otherwise, and none touches the content. *)
Theorem storage_adapter_never_rejects {H} key value
    (got : SecureStoreAdapter.Settled (option string))
    (done_ : SecureStoreAdapter.Settled unit) (s : St H) :
  ((SecureStoreAdapter.getItem key got s).1
   = Ok (match got with
         | SecureStoreAdapter.Fulfilled v => v
         | SecureStoreAdapter.Rejected _ => None
         end)
   ∧ length (errors_logged (emitted (SecureStoreAdapter.getItem key got) s))
     = rejections got
   ∧ injections (emitted (SecureStoreAdapter.getItem key got) s) = [])
  ∧ ((SecureStoreAdapter.setItem key value done_ s).1 = Ok ()
     ∧ length (errors_logged
                 (emitted (SecureStoreAdapter.setItem key value done_) s))
       = rejections done_
     ∧ hook (exec (SecureStoreAdapter.setItem key value done_) s) = hook s)
  ∧ ((SecureStoreAdapter.removeItem key done_ s).1 = Ok ()
     ∧ length (errors_logged
                 (emitted (SecureStoreAdapter.removeItem key done_) s))
       = rejections done_
     ∧ hook (exec (SecureStoreAdapter.removeItem key done_) s) = hook s).
Proof.
  destruct s as [h [wv tm st nx tr]].
  unfold SecureStoreAdapter.getItem, SecureStoreAdapter.setItem,
    SecureStoreAdapter.removeItem, SecureStoreAdapter.await.
  destruct got as [v|e], done_ as [[]|e']; simpl_m; simpl_trace; cbn;
    split_and!; done.
Qed.
